(** * hmalib.common.messages.submit

    A shallow embedding of [hmalib/common/messages/submit.py]: the
    [URLSubmissionMessage] codec and the parser that turns an S3 event
    notification into [S3ImageSubmission]s, together with the two [could_be]
    discriminators.

    The module is dynamically typed Python that works on decoded JSON, so the
    embedding starts from a universe of Python values and the handful of
    builtin operations the module applies to them ([d[k]], [k in d], [len],
    [for ... in], [== 0], [urllib.parse.unquote_plus]).  An operation that
    raises in Python returns [Raise e] here. *)

From Stdlib Require Import ZArith Ascii String List Lia.
From Corelib Require PrimFloat.
From stdpp Require Import base option list strings gmap fin_maps.

Local Open Scope string_scope.
Local Open Scope Z_scope.

Set Warnings "-register-all".

(** ** Python values *)

(** Modelled from the spec: the [ContentType] classes live in
    [threatexchange.content_type.content_base], which is outside this module.
    The only thing [submit.py] asks of such a class is [get_name()], its
    stable registry name. *)
Record ContentType : Type := { get_name : string }.

(** Decoded JSON (null, booleans, numbers, strings, arrays, objects with
    string keys) plus class objects, which [URLSubmissionMessage.content_type]
    holds.  A [str] is represented by its UTF-8 encoding. *)
Inductive value : Type :=
| VNone
| VBool (b : bool)
| VInt (z : Z)
| VFloat (f : PrimFloat.float)
| VStr (s : string)
| VList (l : list value)
| VDict (m : gmap string value)
| VClass (c : ContentType).

(** The exceptions the module can run into. [NamingConventionViolation] only
    comes from the content-id helper. *)
Inductive exn : Type :=
| KeyError (k : value)
| IndexError
| TypeError
| AttributeError
| NamingConventionViolation.

Inductive outcome (A : Type) : Type :=
| Ok (a : A)
| Raise (e : exn).
Arguments Ok {A} a.
Arguments Raise {A} e.

(** [x ← r; k] runs [r] and stops at the first exception. *)
#[global] Instance outcome_bind : MBind outcome := fun A B f r =>
  match r with
  | Ok a => f a
  | Raise e => Raise e
  end.

(** ** Strings

    [String.string] is a list of bytes; a Python [str] is a sequence of code
    points.  The functions below read the bytes as UTF-8, so that [len],
    indexing and iteration count code points. *)

Definition byte_val (c : ascii) : Z := Z.of_N (N_of_ascii c).

Definition byte_of (z : Z) : ascii := ascii_of_N (Z.to_N z).

(** [10xxxxxx]: a byte that continues a multi-byte character. *)
Definition is_continuation (c : ascii) : bool :=
  (128 <=? byte_val c) && (byte_val c <? 192).

(** Bytes that all continue a character. *)
Fixpoint all_continuation (s : string) : bool :=
  match s with
  | EmptyString => true
  | String c s' => is_continuation c && all_continuation s'
  end.

(** [len(s)] *)
Fixpoint str_len (s : string) : Z :=
  match s with
  | EmptyString => 0
  | String c s' => (if is_continuation c then 0 else 1) + str_len s'
  end.

(** the characters of [s], each as a one-character [str] *)
Fixpoint str_chars (s : string) : list string :=
  match s with
  | EmptyString => []
  | String c s' =>
      match s' with
      | String c' _ =>
          if is_continuation c' then
            match str_chars s' with
            | h :: t => String c h :: t
            | [] => [String c EmptyString]
            end
          else String c EmptyString :: str_chars s'
      | EmptyString => [String c EmptyString]
      end
  end.

(** [s[len(p):]] when [s] starts with [p] *)
Fixpoint strip_prefix (p s : string) : option string :=
  match p, s with
  | EmptyString, _ => Some s
  | String a p', String b s' =>
      if Ascii.eqb a b then strip_prefix p' s' else None
  | String _ _, EmptyString => None
  end.

(** [sub in s] for two strings *)
Fixpoint is_substring (sub s : string) : bool :=
  match strip_prefix sub s with
  | Some _ => true
  | None =>
      match s with
      | EmptyString => false
      | String _ s' => is_substring sub s'
      end
  end.

(** ** [urllib.parse.unquote_plus]

    [unquote_plus(s)] is [unquote(s.replace('+', ' '))].  [unquote] cuts its
    argument into maximal runs of ASCII characters and non-ASCII characters;
    the latter pass through; in each ASCII run every ['%'] followed by two hex
    digits becomes the byte they spell (any other ['%'] stays), and the bytes
    of the run are then decoded as UTF-8 with [errors='replace']. *)

Definition replace_plus (s : string) : string :=
  string_of_list_ascii
    (map (fun c => if Ascii.eqb c "+" then " "%char else c)
         (list_ascii_of_string s)).

Definition hex_val (c : ascii) : option Z :=
  let n := byte_val c in
  if (48 <=? n) && (n <=? 57) then Some (n - 48)
  else if (65 <=? n) && (n <=? 70) then Some (n - 55)
  else if (97 <=? n) && (n <=? 102) then Some (n - 87)
  else None.

(** the byte spelled by ["%" h1 h2] *)
Definition escaped (c h1 h2 : ascii) : option ascii :=
  if Ascii.eqb c "%" then
    match hex_val h1, hex_val h2 with
    | Some a, Some b => Some (byte_of (16 * a + b))
    | _, _ => None
    end
  else None.

(** The UTF-8 decoder with [errors='replace'], as a machine over bytes that
    writes UTF-8 back.  Its state is the part of a multi-byte character seen
    so far and the ranges the bytes still to come must lie in; [idle] is
    between characters. *)
Definition utf8_state : Type := string * list (Z * Z).

Definition idle : utf8_state := (EmptyString, []).

(** U+FFFD *)
Definition replacement : string :=
  String (byte_of 239) (String (byte_of 191) (String (byte_of 189) EmptyString)).

Definition tail_range : Z * Z := (128, 191).

Definition lead_ranges (b : Z) : option (list (Z * Z)) :=
  if (194 <=? b) && (b <=? 223) then Some [tail_range]
  else if b =? 224 then Some [(160, 191); tail_range]
  else if b =? 237 then Some [(128, 159); tail_range]
  else if (225 <=? b) && (b <=? 239) then Some [tail_range; tail_range]
  else if b =? 240 then Some [(144, 191); tail_range; tail_range]
  else if (241 <=? b) && (b <=? 243) then Some [tail_range; tail_range; tail_range]
  else if b =? 244 then Some [(128, 143); tail_range; tail_range]
  else None.

Definition utf8_start (c : ascii) : string * utf8_state :=
  if byte_val c <? 128 then (String c EmptyString, idle)
  else
    match lead_ranges (byte_val c) with
    | Some rs => (EmptyString, (String c EmptyString, rs))
    | None => (replacement, idle)
    end.

Definition utf8_feed (st : utf8_state) (c : ascii) : string * utf8_state :=
  match st with
  | (seen, (lo, hi) :: rs) =>
      if (lo <=? byte_val c) && (byte_val c <=? hi) then
        match rs with
        | [] => (seen ++ String c EmptyString, idle)
        | _ :: _ => (EmptyString, (seen ++ String c EmptyString, rs))
        end
      else
        let '(out, st') := utf8_start c in (replacement ++ out, st')
  | (_, []) => utf8_start c
  end.

Definition utf8_flush (st : utf8_state) : string :=
  match st with
  | (_, _ :: _) => replacement
  | (_, []) => EmptyString
  end.

Fixpoint unquote_from (st : utf8_state) (s : string) : string :=
  match s with
  | EmptyString => utf8_flush st
  | String c s' =>
      if 128 <=? byte_val c then
        utf8_flush st ++ String c (unquote_from idle s')
      else
        let literal :=
          let '(out, st') := utf8_feed st c in out ++ unquote_from st' s' in
        match s' with
        | String h1 (String h2 s'') =>
            match escaped c h1 h2 with
            | Some b =>
                let '(out, st') := utf8_feed st b in out ++ unquote_from st' s''
            | None => literal
            end
        | _ => literal
        end
  end.

Definition unquote (s : string) : string := unquote_from idle s.

Definition unquote_plus_str (s : string) : string := unquote (replace_plus s).

(** [unquote_plus(v)]: anything but a [str] has no [replace] method. *)
Definition unquote_plus (v : value) : outcome string :=
  match v with
  | VStr s => Ok (unquote_plus_str s)
  | _ => Raise AttributeError
  end.

(** ** Builtin operations *)

(** [seq[i]] for an integer [i] on a sequence of length [n]: negative indices
    count from the end. *)
Definition seq_index {A : Type} (l : list A) (i : Z) : outcome A :=
  let j := if i <? 0 then i + Z.of_nat (length l) else i in
  if j <? 0 then Raise IndexError
  else
    match l !! Z.to_nat j with
    | Some x => Ok x
    | None => Raise IndexError
    end.

(** [v[k]] *)
Definition getitem (v k : value) : outcome value :=
  match v with
  | VDict m =>
      match k with
      | VStr s =>
          match m !! s with
          | Some x => Ok x
          | None => Raise (KeyError k)
          end
      | VList _ | VDict _ => Raise TypeError
      | _ => Raise (KeyError k)
      end
  | VList l =>
      match k with
      | VInt i => seq_index l i
      | VBool b => seq_index l (if b then 1 else 0)
      | _ => Raise TypeError
      end
  | VStr s =>
      match k with
      | VInt i => c ← seq_index (str_chars s) i; Ok (VStr c)
      | VBool b => c ← seq_index (str_chars s) (if b then 1 else 0); Ok (VStr c)
      | _ => Raise TypeError
      end
  | _ => Raise TypeError
  end.

(** [k == x] for a string [k] *)
Definition str_eq (k : string) (x : value) : bool :=
  match x with
  | VStr s => String.eqb k s
  | _ => false
  end.

(** [k in v] for a string [k]: key of a dict, element of a list, substring
    of a string. *)
Definition contains (k : string) (v : value) : outcome bool :=
  match v with
  | VDict m => Ok (bool_decide (is_Some (m !! k)))
  | VList l => Ok (existsb (str_eq k) l)
  | VStr s => Ok (is_substring k s)
  | _ => Raise TypeError
  end.

(** [len(v)] *)
Definition len (v : value) : outcome Z :=
  match v with
  | VList l => Ok (Z.of_nat (length l))
  | VDict m => Ok (Z.of_nat (size m))
  | VStr s => Ok (str_len s)
  | _ => Raise TypeError
  end.

(** What [for x in v] runs through.  A dict yields its keys (Python in
    insertion order; the order plays no role below, as the loop of this
    module raises on the first key). *)
Definition iter (v : value) : outcome (list value) :=
  match v with
  | VList l => Ok l
  | VDict m => Ok (VStr <$> (map_to_list m).*1)
  | VStr s => Ok (VStr <$> str_chars s)
  | _ => Raise TypeError
  end.

(** [v == 0]; [False == 0] holds as [bool] is a subclass of [int], and so do
    [0.0 == 0] and [-0.0 == 0]. *)
Definition eq_zero (v : value) : bool :=
  match v with
  | VInt z => z =? 0
  | VBool b => negb b
  | VFloat f => PrimFloat.eqb f PrimFloat.zero
  | _ => false
  end.

(** [cls.get_name()] on whatever the field holds *)
Definition call_get_name (v : value) : outcome value :=
  match v with
  | VClass c => Ok (VStr (get_name c))
  | _ => Raise AttributeError
  end.

(** A [for] loop whose body updates [acc] or raises. *)
Fixpoint for_each {A B : Type} (body : A -> B -> outcome A) (acc : A) (l : list B)
  : outcome A :=
  match l with
  | [] => Ok acc
  | x :: l' => acc' ← body acc x; for_each body acc' l'
  end.

(** ** [S3BucketContentSource.get_content_id_from_s3_key] *)

(** Modelled from the spec: [hmalib.common.content_sources] is not part of
    this module.  The content id is the key with the configured prefix removed
    from its start.  A key that does not start with the prefix breaks the
    naming convention, and what happens then is left open; the model raises
    [NamingConventionViolation], and nothing proved below looks at that
    branch. *)
Definition get_content_id_from_s3_key (s3_key image_prefix : string) : outcome string :=
  match strip_prefix image_prefix s3_key with
  | Some content_id => Ok content_id
  | None => Raise NamingConventionViolation
  end.

(** ** [class URLSubmissionMessage] *)

Module URLSubmissionMessage.

(** The dataclass; a field holds whatever the constructor is given. *)
Record t : Type := Build {
  content_type : value;
  content_id : value;
  url : value;
  event_type : value
}.

(** [event_type: str = "URLSubmission"] *)
Definition default_event_type : value := VStr "URLSubmission".

(** [URLSubmissionMessage(content_type, content_id, url)] *)
Definition new (content_type content_id url : value) : t :=
  Build content_type content_id url default_event_type.

Definition to_sqs_message (self : t) : outcome (gmap string value) :=
  name ← call_get_name (content_type self);
  Ok (<["ContentType" := name]>
      (<["ContentId" := content_id self]>
       (<["URL" := url self]>
        (<["EventType" := event_type self]> ∅)))).

Definition from_sqs_message (d : gmap string value) : outcome t :=
  content_type ← getitem (VDict d) (VStr "ContentType");
  content_id ← getitem (VDict d) (VStr "ContentId");
  url ← getitem (VDict d) (VStr "URL");
  event_type ← getitem (VDict d) (VStr "EventType");
  Ok (Build content_type content_id url event_type).

Definition could_be (d : gmap string value) : outcome bool :=
  contains "EventType" (VDict d).

End URLSubmissionMessage.

(** ** [class S3ImageSubmission] *)

Module S3ImageSubmission.

Record t : Type := Build {
  content_id : string;
  bucket : value;
  key : string
}.

End S3ImageSubmission.

(** ** [class S3ImageSubmissionBatchMessage] *)

Module S3ImageSubmissionBatchMessage.

Record t : Type := Build {
  image_submissions : list S3ImageSubmission.t
}.

(** One turn of the loop of [from_sqs_message]: [result] is the list built
    so far.  The call to [logger.info] leaves the list alone. *)
Definition loop_body (image_prefix : string)
    (result : list S3ImageSubmission.t) (s3_record : value)
  : outcome (list S3ImageSubmission.t) :=
  s3 ← getitem s3_record (VStr "s3");
  bucket ← getitem s3 (VStr "bucket");
  bucket_name ← getitem bucket (VStr "name");
  s3 ← getitem s3_record (VStr "s3");
  object ← getitem s3 (VStr "object");
  raw_key ← getitem object (VStr "key");
  key ← unquote_plus raw_key;
  s3 ← getitem s3_record (VStr "s3");
  object ← getitem s3 (VStr "object");
  size ← getitem object (VStr "size");
  if eq_zero size then Ok result
  else
    content_id ← get_content_id_from_s3_key key image_prefix;
    Ok (result ++ [S3ImageSubmission.Build content_id bucket_name key])%list.

Definition from_sqs_message (d : gmap string value) (image_prefix : string)
  : outcome t :=
  records ← getitem (VDict d) (VStr "Records");
  s3_records ← iter records;
  result ← for_each (loop_body image_prefix) [] s3_records;
  Ok (Build result).

Definition could_be (d : gmap string value) : outcome bool :=
  has_records ← contains "Records" (VDict d);
  if has_records : bool then
    records ← getitem (VDict d) (VStr "Records");
    n ← len records;
    if 0 <? n then
      records ← getitem (VDict d) (VStr "Records");
      first ← getitem records (VInt 0);
      contains "s3" first
    else Ok false
  else Ok false.

End S3ImageSubmissionBatchMessage.

(** ** Vocabulary of the specification

    What the wire format of an S3 notification calls the fields of a record,
    as paths through nested JSON objects. *)

Fixpoint lookup_path (v : value) (path : list string) : option value :=
  match path with
  | [] => Some v
  | k :: path' =>
      match v with
      | VDict m =>
          match m !! k with
          | Some x => lookup_path x path'
          | None => None
          end
      | _ => None
      end
  end.

(** The keys of a serialized [URLSubmissionMessage]. *)
Definition required_keys : list string :=
  ["ContentType"; "ContentId"; "URL"; "EventType"].

Definition bucket_name_path : list string := ["s3"; "bucket"; "name"].
Definition object_key_path : list string := ["s3"; "object"; "key"].
Definition object_size_path : list string := ["s3"; "object"; "size"].

(** The three fields of a well-formed record: a bucket name, a
    percent-encoded object key and an object size in bytes. *)
Record s3_fields : Type := Fields {
  f_bucket : string;
  f_key : string;
  f_size : Z
}.

Definition has_fields (r : value) (f : s3_fields) : Prop :=
  lookup_path r bucket_name_path = Some (VStr (f_bucket f)) ∧
  lookup_path r object_key_path = Some (VStr (f_key f)) ∧
  lookup_path r object_size_path = Some (VInt (f_size f)).

Definition nonempty_object (f : s3_fields) : bool := negb (f_size f =? 0).

Definition empty_object (f : s3_fields) : bool := f_size f =? 0.

(** The naming convention of the submission API: the decoded key of a stored
    object starts with the configured prefix. *)
Definition follows_convention (image_prefix : string) (f : s3_fields) : Prop :=
  nonempty_object f = true →
  ∃ rest, unquote_plus_str (f_key f) = image_prefix ++ rest.

(** The submission that stands for a record. *)
Definition stands_for (image_prefix : string)
    (sub : S3ImageSubmission.t) (f : s3_fields) : Prop :=
  S3ImageSubmission.bucket sub = VStr (f_bucket f) ∧
  S3ImageSubmission.key sub = unquote_plus_str (f_key f) ∧
  S3ImageSubmission.key sub = image_prefix ++ S3ImageSubmission.content_id sub.

(** A well-formed record: it has the three fields and follows the naming
    convention. *)
Definition well_formed_record (image_prefix : string) (r : value) : Prop :=
  ∃ f, has_fields r f ∧ follows_convention image_prefix f.

(** A record in the wire shape of an S3 notification, reduced to the fields
    this module reads. *)
Definition notification_record (bucket_name key : string) (size : Z) : value :=
  VDict {[ "s3" :=
    VDict (<["bucket" := VDict {[ "name" := VStr bucket_name ]}]>
           {[ "object" := VDict (<["key" := VStr key]> {[ "size" := VInt size ]}) ]}) ]}.

(** The notification of the end-to-end scenario: a folder marker and an
    image. *)
Definition sample_records : list value :=
  [notification_record "b" "img%2Fsubmissions/a.jpg" 0;
   notification_record "b" "img/submissions/b.jpg" 1024].

Definition sample_fields : list s3_fields :=
  [Fields "b" "img%2Fsubmissions/a.jpg" 0;
   Fields "b" "img/submissions/b.jpg" 1024].

Definition sample_notification : gmap string value :=
  {[ "Records" := VList sample_records ]}.

Definition sample_prefix : string := "img/submissions/".

(** A record whose object has a number for a key and no size. *)
Definition record_without_size : value :=
  VDict {[ "s3" :=
    VDict (<["bucket" := VDict {[ "name" := VStr "b" ]}]>
           {[ "object" := VDict {[ "key" := VInt 5 ]} ]}) ]}.

(** A record with a bucket name and an object that has neither a key nor a
    size. *)
Definition record_missing_key_and_size : value :=
  VDict {[ "s3" :=
    VDict (<["bucket" := VDict {[ "name" := VStr "b" ]}]>
           {[ "object" := VDict ∅ ]}) ]}.

(** A notification with a folder marker and an image whose key has a
    ['+'] and two escapes. *)
Definition escaped_records : list value :=
  [notification_record "b" "img%2Fsubmissions/" 0;
   notification_record "b" "img%2Fsubmissions/my+cat%20one.jpg" 1024].

Definition escaped_fields : list s3_fields :=
  [Fields "b" "img%2Fsubmissions/" 0;
   Fields "b" "img%2Fsubmissions/my+cat%20one.jpg" 1024].

Definition escaped_notification : gmap string value :=
  {[ "Records" := VList escaped_records ]}.

(** The keys [from_sqs_message] reads on its way through a notification. *)
Definition notification_keys : list string :=
  ["s3"; "bucket"; "name"; "object"; "key"; "size"].

Definition is_dict (v : value) : Prop :=
  match v with VDict _ => True | _ => False end.

Definition is_str (v : value) : Prop :=
  match v with VStr _ => True | _ => False end.

(** What sits at [path], if anything does, satisfies [P]. *)
Definition at_path (P : value → Prop) (r : value) (path : list string) : Prop :=
  match lookup_path r path with
  | Some v => P v
  | None => True
  end.

(** A record whose objects are objects and whose key, when there is one, is a
    string: fields may be missing, none is of the wrong kind. *)
Definition typed_record (r : value) : Prop :=
  is_dict r ∧
  at_path is_dict r ["s3"] ∧
  at_path is_dict r ["s3"; "bucket"] ∧
  at_path is_dict r ["s3"; "object"] ∧
  at_path is_str r object_key_path.

Definition lacks_field (r : value) : Prop :=
  lookup_path r bucket_name_path = None ∨
  lookup_path r object_key_path = None ∨
  lookup_path r object_size_path = None.

(** [x] answers [True] to ["s3" in x]. *)
Inductive holds_marker : value → Prop :=
| marker_key (m : gmap string value) :
    is_Some (m !! "s3") → holds_marker (VDict m)
| marker_element (l : list value) :
    VStr "s3" ∈ l → holds_marker (VList l)
| marker_substring (a b : string) :
    holds_marker (VStr (a ++ "s3" ++ b)).

(** The right-hand side of the discrimination rule as the specification words
    it: ["Records"] is a non-empty sequence whose first element is a mapping
    with the key ["s3"]. *)
Definition records_marked (d : gmap string value) : Prop :=
  ∃ m rest, d !! "Records" = Some (VList (VDict m :: rest)) ∧
            is_Some (m !! "s3").

(** Values that have a length, an index and a membership test. *)
Definition is_container (v : value) : Prop :=
  match v with
  | VDict _ | VList _ | VStr _ => True
  | _ => False
  end.

(** Values without a length and without a membership test: [None], booleans,
    numbers and class objects. *)
Definition is_scalar (v : value) : Prop :=
  match v with
  | VNone | VBool _ | VInt _ | VFloat _ | VClass _ => True
  | _ => False
  end.

(** The values of ["Records"] on which [could_be] gets through. *)
Definition records_probe_ok (d : gmap string value) : Prop :=
  match d !! "Records" with
  | None => True
  | Some (VList []) => True
  | Some (VList (x :: _)) => is_container x
  | Some (VStr _) => True
  | Some (VDict m) => m = ∅
  | Some _ => False
  end.

(** ** What percent-encoding means

    The decoding that [unquote_plus] is to perform, said without the
    decoder: a key is a sequence of pieces, each a ['+'] (a space), a
    character written as it is, a ['%'] that starts no escape, or the bytes
    of one UTF-8 character written as escapes ["%XX"], in upper or lower
    case. *)

Definition hex_digits_upper : list ascii := list_ascii_of_string "0123456789ABCDEF".

Definition hex_digits_lower : list ascii := list_ascii_of_string "0123456789abcdef".

(** [c] is the hexadecimal digit of value [n]. *)
Definition is_hex (c : ascii) (n : nat) : Prop :=
  hex_digits_upper !! n = Some c ∨ hex_digits_lower !! n = Some c.

(** [e] spells the bytes [bs], one escape for each. *)
Inductive escapes : string → list Z → Prop :=
| escapes_nil : escapes EmptyString []
| escapes_cons (h1 h2 : ascii) (a b : nat) (e : string) (bs : list Z) :
    is_hex h1 a → is_hex h2 b → escapes e bs →
    escapes (String "%" (String h1 (String h2 e)))
            (16 * Z.of_nat a + Z.of_nat b :: bs).

Definition continuation (b : Z) : Prop := 128 <= b <= 191.

(** The well-formed UTF-8 byte sequences of one character (The Unicode
    Standard, table 3-7). *)
Inductive utf8_char : list Z → Prop :=
| utf8_ascii (b : Z) : 0 <= b <= 127 → utf8_char [b]
| utf8_two (b1 b2 : Z) :
    194 <= b1 <= 223 → continuation b2 → utf8_char [b1; b2]
| utf8_three_e0 (b2 b3 : Z) :
    160 <= b2 <= 191 → continuation b3 → utf8_char [224; b2; b3]
| utf8_three (b1 b2 b3 : Z) :
    225 <= b1 <= 236 ∨ 238 <= b1 <= 239 →
    continuation b2 → continuation b3 → utf8_char [b1; b2; b3]
| utf8_three_ed (b2 b3 : Z) :
    128 <= b2 <= 159 → continuation b3 → utf8_char [237; b2; b3]
| utf8_four_f0 (b2 b3 b4 : Z) :
    144 <= b2 <= 191 → continuation b3 → continuation b4 →
    utf8_char [240; b2; b3; b4]
| utf8_four (b1 b2 b3 b4 : Z) :
    241 <= b1 <= 243 → continuation b2 → continuation b3 → continuation b4 →
    utf8_char [b1; b2; b3; b4]
| utf8_four_f4 (b2 b3 b4 : Z) :
    128 <= b2 <= 143 → continuation b3 → continuation b4 →
    utf8_char [244; b2; b3; b4].

Definition bytes_to_string (bs : list Z) : string :=
  string_of_list_ascii (map byte_of bs).

(** [s] starts with two hexadecimal digits. *)
Definition two_hex (s : string) : Prop :=
  ∃ h1 h2 a b s', s = String h1 (String h2 s') ∧ is_hex h1 a ∧ is_hex h2 b.

(** [decodes s t]: the percent-encoded [s] stands for the text [t]. *)
Inductive decodes : string → string → Prop :=
| decodes_nil : decodes EmptyString EmptyString
| decodes_plus (s t : string) :
    decodes s t → decodes (String "+" s) (String " " t)
| decodes_literal (c : ascii) (s t : string) :
    c ≠ "+"%char → c ≠ "%"%char →
    decodes s t → decodes (String c s) (String c t)
| decodes_percent (s t : string) :
    ¬ two_hex s → decodes s t → decodes (String "%" s) (String "%" t)
| decodes_escape (e : string) (bs : list Z) (s t : string) :
    escapes e bs → utf8_char bs →
    decodes s t → decodes (e ++ s) (bytes_to_string bs ++ t).

(** The decoder run over a list of bytes: what it writes and where it
    stops. *)
Fixpoint feed_all (st : utf8_state) (cs : list ascii) : string * utf8_state :=
  match cs with
  | [] => (EmptyString, st)
  | c :: cs' =>
      let '(out, st') := utf8_feed st c in
      let '(out', st'') := feed_all st' cs' in
      (out ++ out', st'')
  end.

(** The paths [from_sqs_message] reads in a record, in the order in which it
    reads them. *)
Definition reading_order : list (list string) :=
  [["s3"]; ["s3"; "bucket"]; bucket_name_path;
   ["s3"; "object"]; object_key_path; object_size_path].

(** [k] is the first of [keys] that is not [present]. *)
Definition first_absent {A : Type} (present : A → Prop) (keys : list A) (k : A)
  : Prop :=
  ∃ before after, keys = (before ++ k :: after)%list ∧
                  Forall present before ∧ ¬ present k.

(** ** Vocabulary of the further properties *)

Definition is_class (v : value) : Prop :=
  match v with VClass _ => True | _ => False end.

(** What [from_sqs_message] reads in a record as its size says "skip". *)
Definition skipped (r : value) : bool :=
  match lookup_path r object_size_path with
  | Some size => eq_zero size
  | None => false
  end.

Definition kept (r : value) : bool := negb (skipped r).

(** [sub] is the submission made from the record [r]: the bucket name as it
    stands, the decoded key, and the content id derived from the decoded key;
    the size of [r] does not compare equal to zero. *)
Definition made_from (image_prefix : string)
    (sub : S3ImageSubmission.t) (r : value) : Prop :=
  ∃ (bucket_name size : value) (raw_key : string),
    lookup_path r bucket_name_path = Some bucket_name ∧
    lookup_path r object_key_path = Some (VStr raw_key) ∧
    lookup_path r object_size_path = Some size ∧
    eq_zero size = false ∧
    S3ImageSubmission.bucket sub = bucket_name ∧
    S3ImageSubmission.key sub = unquote_plus_str raw_key ∧
    get_content_id_from_s3_key (unquote_plus_str raw_key) image_prefix =
      Ok (S3ImageSubmission.content_id sub).

(** A record the loop gets through on its own: the three fields are there,
    the key is a string, and the content id can be derived unless the record
    is skipped. *)
Definition parses (image_prefix : string) (r : value) : Prop :=
  ∃ (bucket_name size : value) (raw_key : string),
    lookup_path r bucket_name_path = Some bucket_name ∧
    lookup_path r object_key_path = Some (VStr raw_key) ∧
    lookup_path r object_size_path = Some size ∧
    (eq_zero size = true ∨
     ∃ content_id,
       get_content_id_from_s3_key (unquote_plus_str raw_key) image_prefix =
       Ok content_id).

(** No character of [s] is [c]. *)
Definition free_of (c : ascii) (s : string) : Prop :=
  ¬ In c (list_ascii_of_string s).

(** A ["Records"] value with nothing to iterate over. *)
Definition no_records (v : value) : Prop :=
  v = VList [] ∨ v = VDict ∅ ∨ v = VStr "".

Definition is_list (v : value) : Prop :=
  match v with VList _ => True | _ => False end.

(** * Properties *)

(** ** Sanity checks of the string model *)

Example unquote_plus_percent_literals :
  unquote_plus_str "%%41%zz%4" = "%A%zz%4".
Proof. reflexivity. Qed.

Example unquote_plus_truncated_sequence :
  unquote_plus_str "%E2%82x" = replacement ++ "x".
Proof. vm_compute. reflexivity. Qed.

Example unquote_plus_overlong :
  unquote_plus_str "%E0%80" = replacement ++ replacement.
Proof. vm_compute. reflexivity. Qed.

(** ** Basic facts about the builtins *)

Ltac in_list :=
  repeat first [apply list_elem_of_here | apply list_elem_of_further].

Lemma getitem_dict (m : gmap string value) (k : string) :
  getitem (VDict m) (VStr k) =
  match m !! k with
  | Some x => Ok x
  | None => Raise (KeyError (VStr k))
  end.
Proof. reflexivity. Qed.

Lemma getitem_present (m : gmap string value) (k : string) (x : value) :
  m !! k = Some x → getitem (VDict m) (VStr k) = Ok x.
Proof. intros H. rewrite getitem_dict, H. reflexivity. Qed.

Lemma getitem_absent (m : gmap string value) (k : string) :
  m !! k = None → getitem (VDict m) (VStr k) = Raise (KeyError (VStr k)).
Proof. intros H. rewrite getitem_dict, H. reflexivity. Qed.

Lemma contains_dict_true (m : gmap string value) (k : string) :
  contains k (VDict m) = Ok true ↔ is_Some (m !! k).
Proof.
  simpl. split.
  - intros [= H]. by apply bool_decide_eq_true in H.
  - intros H. f_equal. by apply bool_decide_eq_true.
Qed.

Lemma contains_dict_absent (m : gmap string value) (k : string) :
  m !! k = None → contains k (VDict m) = Ok false.
Proof.
  intros H. simpl. f_equal. apply bool_decide_eq_false.
  rewrite H. by intros [? ?].
Qed.

(** ** URLSubmissionMessage *)

Section URLSubmissionMessageProperties.

Import URLSubmissionMessage.

Lemma to_sqs_message_class (c : ContentType) (cid u et : value) :
  to_sqs_message (Build (VClass c) cid u et) =
  Ok (<["ContentType" := VStr (get_name c)]>
      (<["ContentId" := cid]> (<["URL" := u]> (<["EventType" := et]> ∅)))).
Proof. reflexivity. Qed.

Lemma from_sqs_message_complete (d : gmap string value) (ct cid u et : value) :
  d !! "ContentType" = Some ct → d !! "ContentId" = Some cid →
  d !! "URL" = Some u → d !! "EventType" = Some et →
  from_sqs_message d = Ok (Build ct cid u et).
Proof.
  intros H1 H2 H3 H4. unfold from_sqs_message.
  rewrite !getitem_dict, H1, H2, H3, H4. reflexivity.
Qed.

(** A message that came out of [from_sqs_message] holds the name of its
    content type, a [str], which has no [get_name]: it cannot be serialized
    again. *)
Lemma reconstructed_message_does_not_serialize (c : ContentType) (cid u : value) :
  ∃ d m', to_sqs_message (new (VClass c) cid u) = Ok d ∧
          from_sqs_message d = Ok m' ∧
          to_sqs_message m' = Raise AttributeError.
Proof.
  eexists _, _. split; [apply to_sqs_message_class|].
  split; [by apply from_sqs_message_complete|]. reflexivity.
Qed.

(** C1 (the code departs from the claim): serializing a well-formed message
    and deserializing the outcome does not give the message back.
    [to_sqs_message] writes the registry name of the content type,
    [from_sqs_message] stores that name in [content_type] as it is, so the
    reconstructed message holds a [str] where the original holds the class;
    the other three fields do come back. *)
Theorem C1_round_trip_loses_content_type (c : ContentType) (cid u : string) :
  let m := new (VClass c) (VStr cid) (VStr u) in
  ∃ d m', to_sqs_message m = Ok d ∧
          from_sqs_message d = Ok m' ∧
          content_type m' = VStr (get_name c) ∧
          content_id m' = content_id m ∧
          url m' = url m ∧
          event_type m' = event_type m ∧
          m' ≠ m.
Proof.
  intros m. eexists _, _. split; [apply to_sqs_message_class|].
  split; [by apply from_sqs_message_complete|].
  repeat split; discriminate.
Qed.

(** The round trip at a photo submission. *)
Example round_trip_photo :
  (d ← to_sqs_message
         (new (VClass {| get_name := "photo" |}) (VStr "id-1")
              (VStr "https://example.com/a.jpg"));
   from_sqs_message d)
  = Ok (Build (VStr "photo") (VStr "id-1") (VStr "https://example.com/a.jpg")
              (VStr "URLSubmission")).
Proof. vm_compute. reflexivity. Qed.

(** From a mapping that lacks one of the four keys the first missing one, in
    the order the constructor call reads them, is reported. *)
Lemma from_sqs_message_missing (d : gmap string value) (k : string) :
  k ∈ required_keys → d !! k = None →
  ∃ k', k' ∈ required_keys ∧ d !! k' = None ∧
        first_absent (λ k, is_Some (d !! k)) required_keys k' ∧
        from_sqs_message d = Raise (KeyError (VStr k')).
Proof.
  intros Hin Hk. unfold from_sqs_message. rewrite !getitem_dict.
  destruct (d !! "ContentType") eqn:H1; simpl.
  2:{ exists "ContentType". repeat split; [in_list|done|].
      exists [], ["ContentId"; "URL"; "EventType"].
      rewrite H1. repeat split; [constructor|by intros [? ?]]. }
  destruct (d !! "ContentId") eqn:H2; simpl.
  2:{ exists "ContentId". repeat split; [in_list|done|].
      exists ["ContentType"], ["URL"; "EventType"].
      rewrite H2. repeat split; [|by intros [? ?]].
      repeat constructor. by rewrite H1. }
  destruct (d !! "URL") eqn:H3; simpl.
  2:{ exists "URL". repeat split; [in_list|done|].
      exists ["ContentType"; "ContentId"], ["EventType"].
      rewrite H3. repeat split; [|by intros [? ?]].
      repeat constructor; [by rewrite H1|by rewrite H2]. }
  destruct (d !! "EventType") eqn:H4; simpl.
  2:{ exists "EventType". repeat split; [in_list|done|].
      exists ["ContentType"; "ContentId"; "URL"], [].
      rewrite H4. repeat split; [|by intros [? ?]].
      repeat constructor; [by rewrite H1|by rewrite H2|by rewrite H3]. }
  exfalso. unfold required_keys in Hin. set_unfold in Hin.
  intuition congruence.
Qed.

(** [could_be] is the membership test on the mapping itself. *)
Lemma url_could_be_spec (d : gmap string value) :
  could_be d = Ok (bool_decide (is_Some (d !! "EventType"))).
Proof. reflexivity. Qed.

(** C3 (amended): a message built with the default [event_type] carries
    ["URLSubmission"]; [from_sqs_message] copies [d["EventType"]] as it
    finds it, so the message it builds carries ["URLSubmission"] when the
    mapping does, as the serialized form of a default-built message does. *)
Theorem C3_event_type_is_copied :
  (∀ ct cid u : value, event_type (new ct cid u) = VStr "URLSubmission") ∧
  (∀ (d : gmap string value) (ct cid u et : value),
     d !! "ContentType" = Some ct → d !! "ContentId" = Some cid →
     d !! "URL" = Some u → d !! "EventType" = Some et →
     ∃ m, from_sqs_message d = Ok m ∧ event_type m = et) ∧
  (∀ (c : ContentType) (cid u : value) (d : gmap string value),
     to_sqs_message (new (VClass c) cid u) = Ok d →
     ∃ m, from_sqs_message d = Ok m ∧ event_type m = VStr "URLSubmission").
Proof.
  split; [reflexivity|]. split.
  - intros d ct cid u et H1 H2 H3 H4. eexists. split;
      [by apply from_sqs_message_complete|reflexivity].
  - intros c cid u d. unfold new. rewrite to_sqs_message_class. intros [= <-].
    eexists. split; [by apply from_sqs_message_complete|reflexivity].
Qed.

Lemma C3_event_type_is_copied_witness :
  (∃ m, from_sqs_message
          (<["ContentType" := VStr "photo"]>
           (<["ContentId" := VStr "id-1"]>
            (<["URL" := VStr "https://example.com/a.jpg"]>
             {[ "EventType" := VStr "S3Upload" ]}))) = Ok m ∧
        event_type m = VStr "S3Upload") ∧
  (∃ m, from_sqs_message
          (<["ContentType" := VStr "photo"]>
           (<["ContentId" := VStr "id-1"]>
            (<["URL" := VStr "https://example.com/a.jpg"]>
             {[ "EventType" := VStr "URLSubmission" ]}))) = Ok m ∧
        event_type m = VStr "URLSubmission").
Proof.
  destruct C3_event_type_is_copied as (_ & Hcopy & Hdefault). split.
  - apply (Hcopy _ (VStr "photo") (VStr "id-1")
                   (VStr "https://example.com/a.jpg")); reflexivity.
  - apply (Hdefault {| get_name := "photo" |} (VStr "id-1")
                    (VStr "https://example.com/a.jpg")).
    vm_compute. reflexivity.
Defined.

(** C3 (as stated, refuted): a mapping with all four keys whose
    ["EventType"] is not the reserved tag is deserialized into a message
    whose [event_type] is not the reserved tag. *)
Lemma C3_counterexample :
  from_sqs_message
    (<["ContentType" := VStr "photo"]>
     (<["ContentId" := VStr "id-1"]>
      (<["URL" := VStr "https://example.com/a.jpg"]>
       {[ "EventType" := VStr "S3Upload" ]})))
  = Ok (Build (VStr "photo") (VStr "id-1") (VStr "https://example.com/a.jpg")
              (VStr "S3Upload")) ∧
  VStr "S3Upload" ≠ default_event_type.
Proof. split; [vm_compute; reflexivity | discriminate]. Qed.

End URLSubmissionMessageProperties.

(** ** Strings *)

Lemma strip_prefix_app (p rest : string) : strip_prefix p (p ++ rest) = Some rest.
Proof.
  induction p as [|a p IH]; simpl; [by destruct rest|].
  by rewrite Ascii.eqb_refl.
Qed.

Lemma strip_prefix_Some (p s rest : string) :
  strip_prefix p s = Some rest → s = p ++ rest.
Proof.
  revert s. induction p as [|a p IH]; intros s; simpl.
  - destruct s; by intros [= <-].
  - destruct s as [|b s]; [done|].
    destruct (Ascii.eqb_spec a b) as [->|]; [|done].
    intros H. by rewrite (IH _ H).
Qed.

Lemma is_substring_unfold (sub s : string) :
  is_substring sub s =
  match strip_prefix sub s with
  | Some _ => true
  | None =>
      match s with
      | EmptyString => false
      | String _ s' => is_substring sub s'
      end
  end.
Proof. by destruct s. Qed.

Lemma is_substring_true (sub s : string) :
  is_substring sub s = true ↔ ∃ a b, s = a ++ sub ++ b.
Proof.
  split.
  - induction s as [|c s IH]; simpl.
    + destruct (strip_prefix sub "") as [r|] eqn:E; [|done].
      intros _. exists "", r. by apply (strip_prefix_Some sub).
    + destruct (strip_prefix sub (String c s)) as [r|] eqn:E.
      * intros _. exists "", r. by apply (strip_prefix_Some sub).
      * intros (a & b & ->)%IH. by exists (String c a), b.
  - intros (a & b & ->). induction a as [|c a IH].
    + change ("" ++ sub ++ b) with (sub ++ b).
      by rewrite is_substring_unfold, strip_prefix_app.
    + change (String c a ++ sub ++ b) with (String c (a ++ sub ++ b)).
      rewrite is_substring_unfold.
      by destruct (strip_prefix sub (String c (a ++ sub ++ b))).
Qed.

Lemma continuation_not_ascii (c a : ascii) :
  is_continuation c = true → is_continuation a = false → Ascii.eqb a c = false.
Proof. intros Hc Ha. destruct (Ascii.eqb_spec a c) as [->|]; congruence. Qed.

Lemma str_chars_cons (c c' : ascii) (s : string) :
  str_chars (String c (String c' s)) =
  if is_continuation c' then
    match str_chars (String c' s) with
    | h :: t => String c h :: t
    | [] => [String c EmptyString]
    end
  else String c EmptyString :: str_chars (String c' s).
Proof. reflexivity. Qed.

Lemma str_chars_shape (c : ascii) (s : string) :
  ∃ g t, str_chars (String c s) = String c g :: t ∧ all_continuation g = true.
Proof.
  revert c. induction s as [|c' s IH]; intros c.
  - by exists "", [].
  - rewrite str_chars_cons. destruct (is_continuation c') eqn:Hc'.
    + destruct (IH c') as (g & t & -> & Hg). exists (String c' g), t.
      split; [done|]. simpl. by rewrite Hc', Hg.
    + by exists "", (str_chars (String c' s)).
Qed.

Lemma strip_prefix_cons (a : ascii) (p : string) (b : ascii) (s : string) :
  strip_prefix (String a p) (String b s) =
  if Ascii.eqb a b then strip_prefix p s else None.
Proof. reflexivity. Qed.

Lemma continuation_bytes_no_marker (g : string) :
  all_continuation g = true → is_substring "s3" g = false.
Proof.
  induction g as [|a g IH]; [done|].
  intros [Ha Hg]%andb_true_iff. rewrite is_substring_unfold.
  rewrite strip_prefix_cons, (continuation_not_ascii a "s") by done.
  by apply IH.
Qed.

Lemma single_char_no_marker (c : ascii) (g : string) :
  all_continuation g = true → is_substring "s3" (String c g) = false.
Proof.
  intros Hg. rewrite is_substring_unfold.
  assert (strip_prefix "s3" (String c g) = None) as ->.
  { rewrite strip_prefix_cons. destruct (Ascii.eqb "s" c); [|done].
    destruct g as [|b g']; [done|].
    apply andb_true_iff in Hg as [Hb _].
    by rewrite strip_prefix_cons, (continuation_not_ascii b "3"). }
  by apply continuation_bytes_no_marker.
Qed.

(** The first character of a string never holds the two-character marker. *)
Lemma first_char_no_marker (s : string) (x : value) :
  getitem (VStr s) (VInt 0) = Ok x → contains "s3" x = Ok false.
Proof.
  destruct s as [|c s]; [done|].
  destruct (str_chars_shape c s) as (g & t & E & Hg).
  unfold getitem, seq_index. rewrite E. simpl. intros [= <-].
  cbn [contains]. by rewrite single_char_no_marker.
Qed.

Lemma first_char_exists (s : string) :
  0 < str_len s → ∃ x, getitem (VStr s) (VInt 0) = Ok x.
Proof.
  destruct s as [|c s]; [simpl; lia|]. intros _.
  destruct (str_chars_shape c s) as (g & t & E & Hg).
  unfold getitem, seq_index. rewrite E. simpl. eauto.
Qed.

(** ** S3ImageSubmissionBatchMessage.could_be *)

Section CouldBe.

Import S3ImageSubmissionBatchMessage.

(** The probe, with the look-ups in the mapping resolved. *)
Lemma could_be_unfold (d : gmap string value) :
  could_be d =
  match d !! "Records" with
  | None => Ok false
  | Some records =>
      n ← len records;
      if 0 <? n then first ← getitem records (VInt 0); contains "s3" first
      else Ok false
  end.
Proof.
  unfold could_be. destruct (d !! "Records") as [records|] eqn:E.
  - assert (contains "Records" (VDict d) = Ok true) as ->
      by (apply contains_dict_true; rewrite E; eauto).
    cbn [mbind outcome_bind]. rewrite !getitem_dict, E. reflexivity.
  - by rewrite contains_dict_absent.
Qed.

Lemma contains_marker (x : value) :
  contains "s3" x = Ok true ↔ holds_marker x.
Proof.
  split.
  - destruct x as [| | | |s|l|m|]; cbn [contains]; try discriminate; intros [= H].
    + apply is_substring_true in H as (a & b & ->). constructor.
    + constructor. apply existsb_exists in H as (y & Hy & Heq).
      destruct y; cbn [str_eq] in Heq; try discriminate.
      apply String.eqb_eq in Heq as <-. by apply list_elem_of_In.
    + constructor. by apply bool_decide_eq_true in H.
  - intros [m Hm|l Hl|a b]; cbn [contains]; f_equal.
    + by apply bool_decide_eq_true.
    + apply existsb_exists. exists (VStr "s3").
      split; [by apply list_elem_of_In|done].
    + apply is_substring_true. eauto.
Qed.

Lemma contains_container (x : value) :
  (∃ b, contains "s3" x = Ok b) ↔ is_container x.
Proof.
  destruct x; simpl; split; try done; eauto; by intros [? ?].
Qed.

Lemma could_be_list_cons (d : gmap string value) (x : value) (rest : list value) :
  d !! "Records" = Some (VList (x :: rest)) → could_be d = contains "s3" x.
Proof. intros E. by rewrite could_be_unfold, E. Qed.

Lemma could_be_no_records (d : gmap string value) :
  d !! "Records" = None ∨ d !! "Records" = Some (VList []) →
  could_be d = Ok false.
Proof. intros [E|E]; by rewrite could_be_unfold, E. Qed.

(** C6 (amended): [could_be] answers [True] exactly when ["Records"] is a
    non-empty list whose first element answers [True] to ["s3" in x]: a
    mapping with the key ["s3"], a list with the element ["s3"], or a string
    in which ["s3"] occurs.  In particular the rule as the specification
    states it is sufficient, and it is necessary when the first element is a
    mapping. *)
Theorem C6_could_be_iff_first_holds_marker :
  (∀ d : gmap string value,
     could_be d = Ok true ↔
     ∃ x rest, d !! "Records" = Some (VList (x :: rest)) ∧ holds_marker x) ∧
  (∀ d : gmap string value, records_marked d → could_be d = Ok true) ∧
  (∀ (d : gmap string value) (m : gmap string value) (rest : list value),
     d !! "Records" = Some (VList (VDict m :: rest)) →
     could_be d = Ok true → records_marked d).
Proof.
  assert (∀ d : gmap string value,
     could_be d = Ok true ↔
     ∃ x rest, d !! "Records" = Some (VList (x :: rest)) ∧ holds_marker x) as Hiff.
  { intros d. split.
    - rewrite could_be_unfold.
      destruct (d !! "Records") as [[| | | |s|l|m|]|] eqn:E; try discriminate.
      + cbn [len mbind outcome_bind]. destruct (0 <? str_len s); [|done].
        destruct (getitem (VStr s) (VInt 0)) as [x|e] eqn:Ex; [|done].
        cbn [mbind outcome_bind]. by rewrite (first_char_no_marker s x).
      + destruct l as [|x rest]; [done|].
        intros H. exists x, rest. split; [done|]. by apply contains_marker.
      + cbn [len mbind outcome_bind]. by destruct (0 <? Z.of_nat (size m)).
    - intros (x & rest & E & Hx).
      rewrite (could_be_list_cons d x rest E). by apply contains_marker. }
  split; [exact Hiff|]. split.
  - intros d (m & rest & E & Hm). apply Hiff.
    exists (VDict m), rest. split; [done|]. by constructor.
  - intros d m rest E H. exists m, rest. split; [done|].
    rewrite (could_be_list_cons d _ rest E) in H.
    apply contains_marker in H. by inversion H.
Qed.

Lemma C6_could_be_iff_first_holds_marker_witness :
  could_be {[ "Records" := VList [VDict {[ "s3" := VDict ∅ ]}] ]} = Ok true ∧
  records_marked {[ "Records" := VList [VDict {[ "s3" := VDict ∅ ]}] ]}.
Proof.
  destruct C6_could_be_iff_first_holds_marker as (_ & Hif & Honly).
  assert (records_marked {[ "Records" := VList [VDict {[ "s3" := VDict ∅ ]}] ]})
    as Hmarked.
  { eexists _, _. split; [reflexivity|]. vm_compute. eauto. }
  split.
  - apply Hif, Hmarked.
  - apply (Honly _ {[ "s3" := VDict ∅ ]} []); [reflexivity|].
    vm_compute. reflexivity.
Defined.

(** C6 (as stated, refuted): the probe answers [True] on a ["Records"] list
    whose first element is the string ["s3"], which is no mapping and has no
    keys. *)
Lemma C6_counterexample :
  could_be {[ "Records" := VList [VStr "s3"] ]} = Ok true ∧
  ¬ records_marked {[ "Records" := VList [VStr "s3"] ]}.
Proof.
  split; [vm_compute; reflexivity|].
  intros (m & rest & E & _). vm_compute in E. discriminate.
Qed.

(** When the probe gets through. *)
Lemma could_be_returns_iff (d : gmap string value) :
  (∃ b, could_be d = Ok b) ↔ records_probe_ok d.
Proof.
  rewrite could_be_unfold. unfold records_probe_ok.
  destruct (d !! "Records") as [[| | | |s|l|m|]|] eqn:E;
    try (split; [by intros [? ?]|done]).
  - split; [done|]. intros _. cbn [len mbind outcome_bind].
    destruct (0 <? str_len s) eqn:Hlen; [|eauto].
    apply Z.ltb_lt, first_char_exists in Hlen as [x Hx].
    rewrite Hx. cbn [mbind outcome_bind].
    rewrite (first_char_no_marker s x Hx). eauto.
  - destruct l as [|x rest]; [split; [done|]; intros _; by exists false|].
    apply contains_container.
  - cbn [len mbind outcome_bind]. split.
    + destruct (0 <? Z.of_nat (size m)) eqn:Hlen.
      * cbn [getitem mbind outcome_bind]. by intros [? ?].
      * intros _. apply map_size_empty_iff. apply Z.ltb_ge in Hlen. lia.
    + intros ->. rewrite map_size_empty. eauto.
  - split; [done|]. eauto.
Qed.

(** What the probe raises, and on what. *)
Lemma could_be_raises (d : gmap string value) :
  (∀ v, d !! "Records" = Some v → is_scalar v → could_be d = Raise TypeError) ∧
  (∀ m, d !! "Records" = Some (VDict m) → m ≠ ∅ →
        could_be d = Raise (KeyError (VInt 0))) ∧
  (∀ x rest, d !! "Records" = Some (VList (x :: rest)) → is_scalar x →
             could_be d = Raise TypeError).
Proof.
  split; [|split].
  - intros v E Hv. rewrite could_be_unfold, E. by destruct v.
  - intros m E Hm. rewrite could_be_unfold, E. cbn [len mbind outcome_bind].
    destruct (0 <? Z.of_nat (size m)) eqn:Hlen; [reflexivity|].
    apply Z.ltb_ge in Hlen. destruct Hm. apply map_size_empty_iff. lia.
  - intros x rest E Hx. rewrite (could_be_list_cons d x rest E). by destruct x.
Qed.

(** Where the probe answers [False] for want of records. *)
Lemma could_be_false (d : gmap string value) :
  d !! "Records" = None ∨ d !! "Records" = Some (VList []) ∨
  d !! "Records" = Some (VDict ∅) ∨ (∃ s, d !! "Records" = Some (VStr s)) →
  could_be d = Ok false.
Proof.
  intros [E|[E|[E|[s E]]]]; rewrite could_be_unfold, E; try reflexivity.
  cbn [len mbind outcome_bind].
  destruct (0 <? str_len s) eqn:Hlen; [|reflexivity].
  apply Z.ltb_lt, first_char_exists in Hlen as [x Hx].
  rewrite Hx. cbn [mbind outcome_bind]. by apply (first_char_no_marker s).
Qed.

(** C4 (amended): [URLSubmissionMessage.could_be] returns a boolean on every
    mapping.  [S3ImageSubmissionBatchMessage.could_be] returns a boolean
    exactly when ["Records"] is absent, a string, an empty mapping, an empty
    list, or a list whose first element is a mapping, a list or a string; it
    answers [False] when ["Records"] is absent, an empty list, an empty
    mapping or a string.  It raises [TypeError] when ["Records"] is [None], a
    boolean, a number or a class object, or a list whose first element is one
    of these, and [KeyError] for [0] when ["Records"] is a non-empty
    mapping. *)
Theorem C4_could_be_returns :
  (∀ d : gmap string value, ∃ b, URLSubmissionMessage.could_be d = Ok b) ∧
  (∀ d : gmap string value, (∃ b, could_be d = Ok b) ↔ records_probe_ok d) ∧
  (∀ d : gmap string value,
     d !! "Records" = None ∨ d !! "Records" = Some (VList []) ∨
     d !! "Records" = Some (VDict ∅) ∨ (∃ s, d !! "Records" = Some (VStr s)) →
     could_be d = Ok false) ∧
  (∀ (d : gmap string value) (v : value),
     d !! "Records" = Some v → is_scalar v → could_be d = Raise TypeError) ∧
  (∀ (d m : gmap string value),
     d !! "Records" = Some (VDict m) → m ≠ ∅ →
     could_be d = Raise (KeyError (VInt 0))) ∧
  (∀ (d : gmap string value) (x : value) (rest : list value),
     d !! "Records" = Some (VList (x :: rest)) → is_scalar x →
     could_be d = Raise TypeError).
Proof.
  split; [intros d; rewrite url_could_be_spec; eauto|].
  split; [exact could_be_returns_iff|].
  split; [exact could_be_false|].
  split; [|split]; intros d.
  - apply (could_be_raises d).
  - apply (could_be_raises d).
  - apply (could_be_raises d).
Qed.

Lemma C4_could_be_returns_witness :
  could_be {[ "EventType" := VStr "URLSubmission" ]} = Ok false ∧
  could_be {[ "Records" := VDict ∅ ]} = Ok false ∧
  could_be {[ "Records" := VStr "s3" ]} = Ok false ∧
  (∃ b, could_be {[ "Records" := VList [VDict ∅] ]} = Ok b) ∧
  could_be {[ "Records" := VNone ]} = Raise TypeError ∧
  could_be {[ "Records" := VDict {[ "s3" := VDict ∅ ]} ]} =
    Raise (KeyError (VInt 0)) ∧
  could_be {[ "Records" := VList [VInt 5] ]} = Raise TypeError.
Proof.
  destruct C4_could_be_returns
    as (_ & Hiff & Hfalse & Hscalar & Hmapping & Hfirst).
  split; [apply Hfalse; left; reflexivity|].
  split; [apply Hfalse; right; right; left; reflexivity|].
  split; [apply Hfalse; right; right; right; by exists "s3"|].
  split; [apply Hiff; vm_compute; exact I|].
  split; [apply (Hscalar _ VNone); [reflexivity|exact I]|].
  split.
  - apply (Hmapping _ {[ "s3" := VDict ∅ ]}); [reflexivity|].
    intros H. discriminate H.
  - apply (Hfirst _ (VInt 5) []); [reflexivity|exact I].
Defined.

(** C4 (as stated, refuted): a ["Records"] that is a number has no [len]. *)
Lemma C4_counterexample :
  could_be {[ "Records" := VInt 5 ]} = Raise TypeError.
Proof. vm_compute. reflexivity. Qed.

(** The same happens one level down: a number has no [in]. *)
Example could_be_first_element_number :
  could_be {[ "Records" := VList [VInt 5] ]} = Raise TypeError.
Proof. vm_compute. reflexivity. Qed.

(** C5 (amended): on a mapping that lacks ["EventType"] or lacks
    ["Records"] the two probes do not both answer [True]. *)
Theorem C5_could_be_exclusive_without_both_keys (d : gmap string value) :
  d !! "EventType" = None ∨ d !! "Records" = None →
  ¬ (URLSubmissionMessage.could_be d = Ok true ∧ could_be d = Ok true).
Proof.
  intros [E|E] [Hurl Hs3].
  - apply contains_dict_true in Hurl. rewrite E in Hurl. by destruct Hurl.
  - rewrite could_be_no_records in Hs3 by auto. discriminate.
Qed.

Lemma C5_could_be_exclusive_without_both_keys_witness :
  ¬ (URLSubmissionMessage.could_be
       {[ "Records" := VList [VDict {[ "s3" := VDict ∅ ]}] ]} = Ok true ∧
     could_be {[ "Records" := VList [VDict {[ "s3" := VDict ∅ ]}] ]} = Ok true).
Proof.
  apply C5_could_be_exclusive_without_both_keys. left. reflexivity.
Defined.

(** C5 (as stated, refuted): a mapping with both keys satisfies both
    probes. *)
Lemma C5_counterexample :
  URLSubmissionMessage.could_be
    (<["EventType" := VStr "URLSubmission"]>
     {[ "Records" := VList [VDict {[ "s3" := VDict ∅ ]}] ]}) = Ok true ∧
  could_be
    (<["EventType" := VStr "URLSubmission"]>
     {[ "Records" := VList [VDict {[ "s3" := VDict ∅ ]}] ]}) = Ok true.
Proof. split; vm_compute; reflexivity. Qed.

(** C10: a mapping can pass the probe and still fail to parse.  The probe
    stops at the ["s3"] key of the first record; the parser goes on to the
    bucket, the object, its key and its size, and raises when one is
    missing. *)
Theorem C10_could_be_does_not_imply_parseable :
  (∃ d : gmap string value,
     could_be d = Ok true ∧
     ∀ image_prefix, from_sqs_message d image_prefix = Raise (KeyError (VStr "bucket"))) ∧
  (∃ d : gmap string value,
     could_be d = Ok true ∧
     ∀ image_prefix, from_sqs_message d image_prefix = Raise (KeyError (VStr "object"))) ∧
  (∃ d : gmap string value,
     could_be d = Ok true ∧
     ∀ image_prefix, from_sqs_message d image_prefix = Raise (KeyError (VStr "size"))).
Proof.
  split; [|split].
  - exists {[ "Records" := VList [VDict {[ "s3" := VDict ∅ ]}] ]}.
    split; [vm_compute; reflexivity|]. intros p. vm_compute. reflexivity.
  - exists {[ "Records" :=
              VList [VDict {[ "s3" :=
                VDict {[ "bucket" := VDict {[ "name" := VStr "b" ]} ]} ]}] ]}.
    split; [vm_compute; reflexivity|]. intros p. vm_compute. reflexivity.
  - exists {[ "Records" :=
              VList [VDict {[ "s3" :=
                VDict (<["bucket" := VDict {[ "name" := VStr "b" ]}]>
                       {[ "object" := VDict {[ "key" := VStr "a.jpg" ]} ]}) ]}] ]}.
    split; [vm_compute; reflexivity|]. intros p. vm_compute. reflexivity.
Qed.

End CouldBe.

(** ** The decoder against the meaning of percent-encoding *)

Section Decoding.

Lemma replace_plus_cons (a : ascii) (s : string) :
  replace_plus (String a s) =
  String (if Ascii.eqb a "+" then " "%char else a) (replace_plus s).
Proof. reflexivity. Qed.

(** Outside an escape an ASCII character goes to the decoder as it is. *)
Lemma unquote_from_literal (st : utf8_state) (c : ascii) (s : string) :
  byte_val c < 128 → c ≠ "%"%char →
  unquote_from st (String c s) =
  let '(out, st') := utf8_feed st c in out ++ unquote_from st' s.
Proof.
  intros Hc Hpercent. cbn [unquote_from].
  destruct (128 <=? byte_val c) eqn:Hge; [apply Z.leb_le in Hge; lia|].
  assert (∀ h1 h2, escaped c h1 h2 = None) as Hesc.
  { intros h1 h2. unfold escaped.
    by destruct (Ascii.eqb_spec c "%"). }
  destruct s as [|h1 [|h2 s]]; try reflexivity. by rewrite Hesc.
Qed.

Lemma string_app_assoc (s1 s2 s3 : string) : (s1 ++ s2) ++ s3 = s1 ++ s2 ++ s3.
Proof.
  induction s1 as [|c s1 IH]; [reflexivity|].
  change (String c ((s1 ++ s2) ++ s3) = String c (s1 ++ s2 ++ s3)).
  by rewrite IH.
Qed.

Lemma byte_val_byte_of (z : Z) : 0 <= z < 256 → byte_val (byte_of z) = z.
Proof.
  intros Hz. unfold byte_val, byte_of.
  rewrite N_ascii_embedding by lia. lia.
Qed.

Lemma is_hex_hex_val (c : ascii) (n : nat) :
  is_hex c n → hex_val c = Some (Z.of_nat n) ∧ (n < 16)%nat.
Proof.
  unfold is_hex, hex_digits_upper, hex_digits_lower. intros H.
  do 16 (destruct n as [|n];
         [cbn in H; destruct H as [[= <-]|[= <-]]; (split; [reflexivity|lia])|]).
  cbn in H. destruct H; discriminate.
Qed.

Lemma hex_val_is_hex (c : ascii) (n : Z) :
  hex_val c = Some n → is_hex c (Z.to_nat n).
Proof.
  destruct c as [b0 b1 b2 b3 b4 b5 b6 b7].
  destruct b0, b1, b2, b3, b4, b5, b6, b7; intros H; vm_compute in H;
    try discriminate H; injection H as <-;
    first [left; vm_compute; reflexivity | right; vm_compute; reflexivity].
Qed.

Lemma escaped_hex (h1 h2 : ascii) (a b : nat) :
  is_hex h1 a → is_hex h2 b →
  escaped "%" h1 h2 = Some (byte_of (16 * Z.of_nat a + Z.of_nat b)).
Proof.
  intros [Ha _]%is_hex_hex_val [Hb _]%is_hex_hex_val.
  unfold escaped. change (Ascii.eqb "%" "%") with true. cbv iota.
  by rewrite Ha, Hb.
Qed.

Lemma unquote_from_escape (st : utf8_state) (h1 h2 c : ascii) (r : string) :
  escaped "%" h1 h2 = Some c →
  unquote_from st (String "%" (String h1 (String h2 r))) =
  let '(out, st') := utf8_feed st c in out ++ unquote_from st' r.
Proof.
  intros H. cbn [unquote_from].
  change (128 <=? byte_val "%") with false. cbv iota. by rewrite H.
Qed.

Lemma unquote_from_escapes (e : string) (bs : list Z) :
  escapes e bs → ∀ (st : utf8_state) (r : string),
  unquote_from st (e ++ r) =
  let '(out, st') := feed_all st (map byte_of bs) in out ++ unquote_from st' r.
Proof.
  induction 1 as [|h1 h2 a b e bs Ha Hb He IH]; intros st r; [reflexivity|].
  change (String "%" (String h1 (String h2 e)) ++ r)
    with (String "%" (String h1 (String h2 (e ++ r)))).
  rewrite (unquote_from_escape st h1 h2 _ _ (escaped_hex h1 h2 a b Ha Hb)).
  cbn [map feed_all].
  destruct (utf8_feed st (byte_of (16 * Z.of_nat a + Z.of_nat b))) as [out st'].
  rewrite IH. destruct (feed_all st' (map byte_of bs)) as [out' st''].
  by rewrite string_app_assoc.
Qed.

Ltac decide_comparisons :=
  repeat (progress
    (repeat match goal with
       | |- context [?a <=? ?b] =>
           first [rewrite (proj2 (Z.leb_le a b)) by lia
                 | rewrite (proj2 (Z.leb_gt a b)) by lia]
       | |- context [?a <? ?b] =>
           first [rewrite (proj2 (Z.ltb_lt a b)) by lia
                 | rewrite (proj2 (Z.ltb_ge a b)) by lia]
       | |- context [?a =? ?b] =>
           first [rewrite (proj2 (Z.eqb_eq a b)) by lia
                 | rewrite (proj2 (Z.eqb_neq a b)) by lia]
       end;
     cbn [andb orb])).

Lemma utf8_start_ascii (b : Z) :
  0 <= b <= 127 → utf8_start (byte_of b) = (String (byte_of b) EmptyString, idle).
Proof.
  intros Hb. unfold utf8_start. rewrite byte_val_byte_of by lia.
  by decide_comparisons.
Qed.

Lemma utf8_start_lead (b : Z) (rs : list (Z * Z)) :
  128 <= b < 256 → lead_ranges b = Some rs →
  utf8_start (byte_of b) = (EmptyString, (String (byte_of b) EmptyString, rs)).
Proof.
  intros Hb Hrs. unfold utf8_start. rewrite byte_val_byte_of by lia.
  decide_comparisons. by rewrite Hrs.
Qed.

Lemma utf8_feed_last (seen : string) (lo hi b : Z) :
  lo <= b <= hi → 0 <= b < 256 →
  utf8_feed (seen, [(lo, hi)]) (byte_of b) =
  (seen ++ String (byte_of b) EmptyString, idle).
Proof.
  intros Hb Hbyte. unfold utf8_feed. rewrite byte_val_byte_of by lia.
  by decide_comparisons.
Qed.

Lemma utf8_feed_more (seen : string) (lo hi b : Z) (r : Z * Z) (rs : list (Z * Z)) :
  lo <= b <= hi → 0 <= b < 256 →
  utf8_feed (seen, (lo, hi) :: r :: rs) (byte_of b) =
  (EmptyString, (seen ++ String (byte_of b) EmptyString, r :: rs)).
Proof.
  intros Hb Hbyte. unfold utf8_feed. rewrite byte_val_byte_of by lia.
  by decide_comparisons.
Qed.

Lemma lead_ranges_two (b : Z) : 194 <= b <= 223 → lead_ranges b = Some [tail_range].
Proof. intros Hb. unfold lead_ranges. by decide_comparisons. Qed.

Lemma lead_ranges_three (b : Z) :
  225 <= b <= 236 ∨ 238 <= b <= 239 →
  lead_ranges b = Some [tail_range; tail_range].
Proof. intros Hb. unfold lead_ranges. by decide_comparisons. Qed.

Lemma lead_ranges_four (b : Z) :
  241 <= b <= 243 → lead_ranges b = Some [tail_range; tail_range; tail_range].
Proof. intros Hb. unfold lead_ranges. by decide_comparisons. Qed.

(** The decoder takes the bytes of a well-formed character, writes them out
    as they are, and is back between characters. *)
Lemma feed_all_char (bs : list Z) :
  utf8_char bs → feed_all idle (map byte_of bs) = (bytes_to_string bs, idle).
Proof.
  intros [b Hb|b1 b2 H1 H2|b2 b3 H2 H3|b1 b2 b3 H1 H2 H3|b2 b3 H2 H3
         |b2 b3 b4 H2 H3 H4|b1 b2 b3 b4 H1 H2 H3 H4|b2 b3 b4 H2 H3 H4];
    unfold continuation in *;
    cbn [map feed_all]; change (utf8_feed idle) with utf8_start.
  - by rewrite utf8_start_ascii.
  - rewrite (utf8_start_lead b1 _) by (lia || by apply lead_ranges_two).
    unfold tail_range. by rewrite utf8_feed_last by lia.
  - rewrite (utf8_start_lead 224 [(160, 191); tail_range]) by (lia || done).
    unfold tail_range. rewrite utf8_feed_more by lia.
    by rewrite utf8_feed_last by lia.
  - rewrite (utf8_start_lead b1 _) by (lia || by apply lead_ranges_three).
    unfold tail_range. rewrite utf8_feed_more by lia.
    by rewrite utf8_feed_last by lia.
  - rewrite (utf8_start_lead 237 [(128, 159); tail_range]) by (lia || done).
    unfold tail_range. rewrite utf8_feed_more by lia.
    by rewrite utf8_feed_last by lia.
  - rewrite (utf8_start_lead 240 [(144, 191); tail_range; tail_range])
      by (lia || done).
    unfold tail_range. rewrite !utf8_feed_more by lia.
    by rewrite utf8_feed_last by lia.
  - rewrite (utf8_start_lead b1 _) by (lia || by apply lead_ranges_four).
    unfold tail_range. rewrite !utf8_feed_more by lia.
    by rewrite utf8_feed_last by lia.
  - rewrite (utf8_start_lead 244 [(128, 143); tail_range; tail_range])
      by (lia || done).
    unfold tail_range. rewrite !utf8_feed_more by lia.
    by rewrite utf8_feed_last by lia.
Qed.

Lemma is_hex_not_plus (c : ascii) (n : nat) :
  is_hex c n → c ≠ "+"%char ∧ c ≠ " "%char.
Proof.
  intros [H _]%is_hex_hex_val. split; intros ->; vm_compute in H; discriminate.
Qed.

Lemma replace_plus_keeps (c : ascii) (s : string) :
  c ≠ "+"%char → replace_plus (String c s) = String c (replace_plus s).
Proof.
  intros Hc. rewrite replace_plus_cons. by destruct (Ascii.eqb_spec c "+").
Qed.

Lemma replace_plus_escapes (e : string) (bs : list Z) (s : string) :
  escapes e bs → replace_plus (e ++ s) = e ++ replace_plus s.
Proof.
  induction 1 as [|h1 h2 a b e bs [Ha _]%is_hex_not_plus [Hb _]%is_hex_not_plus _ IH];
    [reflexivity|].
  change (String "%" (String h1 (String h2 e)) ++ s)
    with (String "%" (String h1 (String h2 (e ++ s)))).
  rewrite !replace_plus_keeps by done. by rewrite IH.
Qed.

Lemma replace_plus_two_hex (s : string) : two_hex (replace_plus s) → two_hex s.
Proof.
  intros (h1 & h2 & a & b & s' & Hs & Ha & Hb).
  destruct s as [|c1 [|c2 s0]]; try discriminate.
  rewrite !replace_plus_cons in Hs. injection Hs as <- <- _.
  exists c1, c2, a, b, s0. split; [done|].
  destruct (is_hex_not_plus _ _ Ha) as [_ Ha'], (is_hex_not_plus _ _ Hb) as [_ Hb'].
  destruct (Ascii.eqb c1 "+"), (Ascii.eqb c2 "+"); done.
Qed.

Lemma escaped_two_hex (h1 h2 c : ascii) (s : string) :
  escaped "%" h1 h2 = Some c → two_hex (String h1 (String h2 s)).
Proof.
  unfold escaped. change (Ascii.eqb "%" "%") with true. cbv iota.
  destruct (hex_val h1) as [a|] eqn:Ha; [|discriminate].
  destruct (hex_val h2) as [b|] eqn:Hb; [|discriminate].
  intros _. exists h1, h2, (Z.to_nat a), (Z.to_nat b), s.
  split; [done|]. split; by apply hex_val_is_hex.
Qed.

(** A ['%'] that starts no escape goes to the decoder as it is. *)
Lemma unquote_from_percent (st : utf8_state) (s : string) :
  ¬ two_hex s →
  unquote_from st (String "%" s) =
  let '(out, st') := utf8_feed st "%" in out ++ unquote_from st' s.
Proof.
  intros Hs. cbn [unquote_from].
  change (128 <=? byte_val "%") with false. cbv iota.
  destruct s as [|h1 [|h2 s']]; try reflexivity.
  destruct (escaped "%" h1 h2) as [c|] eqn:E; [|reflexivity].
  destruct Hs. by apply (escaped_two_hex h1 h2 c).
Qed.

Lemma utf8_feed_idle_ascii (c : ascii) :
  byte_val c < 128 → utf8_feed idle c = (String c EmptyString, idle).
Proof.
  intros Hc. change (utf8_feed idle c) with (utf8_start c). unfold utf8_start.
  by rewrite (proj2 (Z.ltb_lt _ _) Hc).
Qed.

(** The decoder does what percent-encoding means. *)
Lemma unquote_plus_decodes (s t : string) :
  decodes s t → unquote_plus_str s = t.
Proof.
  unfold unquote_plus_str, unquote.
  induction 1 as [|s t _ IH|c s t Hplus Hpercent _ IH|s t Hs _ IH
                 |e bs s t He Hbs _ IH].
  - reflexivity.
  - rewrite replace_plus_cons. change (Ascii.eqb "+" "+") with true. cbv iota.
    rewrite unquote_from_literal by done.
    rewrite utf8_feed_idle_ascii by done. by rewrite IH.
  - rewrite replace_plus_keeps by done.
    destruct (128 <=? byte_val c) eqn:Hge.
    + cbn [unquote_from]. rewrite Hge, IH. reflexivity.
    + apply Z.leb_gt in Hge. rewrite unquote_from_literal by done.
      rewrite utf8_feed_idle_ascii by done. by rewrite IH.
  - rewrite replace_plus_keeps by done.
    rewrite unquote_from_percent
      by (intros H; by apply Hs, replace_plus_two_hex).
    rewrite utf8_feed_idle_ascii by done. by rewrite IH.
  - rewrite (replace_plus_escapes e bs) by done.
    rewrite (unquote_from_escapes e bs He), (feed_all_char bs Hbs). by rewrite IH.
Qed.

Example decodes_example :
  decodes "folder+name/file%20one.jpg" "folder name/file one.jpg".
Proof.
  do 6 (apply decodes_literal; [done..|]). apply decodes_plus.
  do 9 (apply decodes_literal; [done..|]).
  apply (decodes_escape "%20" [32] "one.jpg" "one.jpg").
  - apply (escapes_cons "2" "0" 2 0); [by left..|constructor].
  - apply utf8_ascii. lia.
  - do 7 (apply decodes_literal; [done..|]). constructor.
Qed.

End Decoding.

(** ** S3ImageSubmissionBatchMessage.from_sqs_message *)

Section FromSqsMessage.

Import S3ImageSubmissionBatchMessage.

Lemma lookup_path_cons (r : value) (k : string) (path : list string) (v : value) :
  lookup_path r (k :: path) = Some v →
  ∃ m x, r = VDict m ∧ m !! k = Some x ∧ lookup_path x path = Some v.
Proof.
  destruct r as [| | | | | |m|]; try discriminate. cbn [lookup_path].
  destruct (m !! k) as [x|] eqn:E; [|discriminate]. eauto.
Qed.

(** [x ← getitem (VDict m) k; ...] when [m !! k] is known *)
Ltac read H := rewrite (getitem_present _ _ _ H); cbn [mbind outcome_bind].

(** One turn of the loop on a record that has the three fields, whatever
    their kinds: the key is decoded first, then the size is looked at, then
    the content id is derived from the decoded key. *)
Lemma loop_body_with_fields (image_prefix : string)
    (result : list S3ImageSubmission.t) (r bucket_name raw_key size : value) :
  lookup_path r bucket_name_path = Some bucket_name →
  lookup_path r object_key_path = Some raw_key →
  lookup_path r object_size_path = Some size →
  loop_body image_prefix result r =
  (key ← unquote_plus raw_key;
   if eq_zero size then Ok result
   else
     content_id ← get_content_id_from_s3_key key image_prefix;
     Ok (result ++ [S3ImageSubmission.Build content_id bucket_name key])%list).
Proof.
  intros Hn Hk Hs.
  apply lookup_path_cons in Hn as (m & s3 & -> & Hs3 & Hn).
  apply lookup_path_cons in Hn as (s & bucket & -> & Hbucket & Hn).
  apply lookup_path_cons in Hn as (b & name & -> & Hname & [= ->]).
  apply lookup_path_cons in Hk as (? & ? & [= <-] & Hs3' & Hk).
  rewrite Hs3 in Hs3'. injection Hs3' as <-.
  apply lookup_path_cons in Hk as (? & object & [= <-] & Hobject & Hk).
  apply lookup_path_cons in Hk as (o & ? & -> & Hkey & [= ->]).
  apply lookup_path_cons in Hs as (? & ? & [= <-] & Hs3' & Hs).
  rewrite Hs3 in Hs3'. injection Hs3' as <-.
  apply lookup_path_cons in Hs as (? & ? & [= <-] & Hobject' & Hs).
  rewrite Hobject in Hobject'. injection Hobject' as <-.
  apply lookup_path_cons in Hs as (? & ? & [= <-] & Hsize & [= ->]).
  unfold loop_body.
  read Hs3. read Hbucket. read Hname. read Hobject. read Hkey.
  destruct (unquote_plus raw_key) as [key|e]; [|reflexivity].
  cbn [mbind outcome_bind]. read Hsize. reflexivity.
Qed.

Lemma for_each_app {A B : Type} (body : A → B → outcome A) (acc : A) (l1 l2 : list B) :
  for_each body acc (l1 ++ l2)%list =
  (acc' ← for_each body acc l1; for_each body acc' l2).
Proof.
  revert acc. induction l1 as [|x l1 IH]; intros acc; [reflexivity|].
  cbn [for_each app]. destruct (body acc x) as [acc'|e]; [|reflexivity].
  cbn [mbind outcome_bind]. apply IH.
Qed.

(** A record of size zero leaves the list as it is. *)
Lemma loop_body_empty_object (image_prefix : string)
    (result : list S3ImageSubmission.t) (r : value) (f : s3_fields) :
  has_fields r f → nonempty_object f = false →
  loop_body image_prefix result r = Ok result.
Proof.
  intros (Hn & Hk & Hs) Hsize.
  rewrite (loop_body_with_fields _ _ _ _ _ _ Hn Hk Hs).
  cbn [unquote_plus mbind outcome_bind eq_zero].
  unfold nonempty_object in Hsize. apply negb_false_iff in Hsize.
  by rewrite Hsize.
Qed.

(** A record of a stored object that follows the naming convention adds one
    submission at the end of the list. *)
Lemma loop_body_stored_object (image_prefix : string)
    (result : list S3ImageSubmission.t) (r : value) (f : s3_fields) (rest : string) :
  has_fields r f → nonempty_object f = true →
  unquote_plus_str (f_key f) = image_prefix ++ rest →
  loop_body image_prefix result r =
  Ok (result ++ [S3ImageSubmission.Build rest (VStr (f_bucket f))
                                         (image_prefix ++ rest)])%list.
Proof.
  intros (Hn & Hk & Hs) Hsize Hkey.
  rewrite (loop_body_with_fields _ _ _ _ _ _ Hn Hk Hs).
  cbn [unquote_plus mbind outcome_bind eq_zero].
  unfold nonempty_object in Hsize. apply negb_true_iff in Hsize.
  rewrite Hsize, Hkey. unfold get_content_id_from_s3_key.
  by rewrite strip_prefix_app.
Qed.

(** The loop over a well-formed batch. *)
Lemma for_each_well_formed (image_prefix : string)
    (rs : list value) (fs : list s3_fields) (result : list S3ImageSubmission.t) :
  Forall2 has_fields rs fs → Forall (follows_convention image_prefix) fs →
  ∃ subs, for_each (loop_body image_prefix) result rs = Ok (result ++ subs)%list ∧
          Forall2 (stands_for image_prefix) subs (List.filter nonempty_object fs).
Proof.
  intros Hfields. revert result.
  induction Hfields as [|r f rs fs Hr _ IH]; intros result Hconv.
  - exists []. split; [by rewrite app_nil_r|constructor].
  - apply Forall_cons in Hconv as [Hf Hconv]. cbn [for_each List.filter].
    destruct (nonempty_object f) eqn:Hsize.
    + destruct (Hf Hsize) as [rest Hkey].
      rewrite (loop_body_stored_object _ _ _ _ rest Hr Hsize Hkey).
      cbn [mbind outcome_bind].
      destruct (IH (result ++ [S3ImageSubmission.Build rest (VStr (f_bucket f))
                                 (image_prefix ++ rest)])%list Hconv)
        as (subs & -> & Hsubs).
      eexists (_ :: subs). split; [by rewrite <- app_assoc|].
      constructor; [|done]. by repeat split.
    + rewrite (loop_body_empty_object _ _ _ _ Hr Hsize).
      cbn [mbind outcome_bind]. by apply IH.
Qed.

Lemma from_sqs_message_list (d : gmap string value) (image_prefix : string)
    (rs : list value) :
  d !! "Records" = Some (VList rs) →
  from_sqs_message d image_prefix =
  (result ← for_each (loop_body image_prefix) [] rs; Ok (Build result)).
Proof. intros E. unfold from_sqs_message. by read E. Qed.

(** What [from_sqs_message] returns on a well-formed batch. *)
Lemma from_sqs_message_well_formed (d : gmap string value) (image_prefix : string)
    (rs : list value) (fs : list s3_fields) :
  d !! "Records" = Some (VList rs) →
  Forall2 has_fields rs fs → Forall (follows_convention image_prefix) fs →
  ∃ subs, from_sqs_message d image_prefix = Ok (Build subs) ∧
          Forall2 (stands_for image_prefix) subs (List.filter nonempty_object fs).
Proof.
  intros E Hfields Hconv. rewrite (from_sqs_message_list _ _ _ E).
  destruct (for_each_well_formed image_prefix rs fs [] Hfields Hconv)
    as (subs & -> & Hsubs).
  by exists subs.
Qed.

Lemma filter_empty_nonempty (fs : list s3_fields) :
  length (List.filter nonempty_object fs) =
  (length fs - length (List.filter empty_object fs))%nat.
Proof.
  induction fs as [|f fs IH]; [reflexivity|].
  pose proof (List.filter_length_le empty_object fs).
  cbn [List.filter].
  change (nonempty_object f) with (negb (empty_object f)).
  destruct (empty_object f); cbn [negb length]; rewrite ?IH; lia.
Qed.

(** C7: from a well-formed batch of N records, M of them of size zero,
    [from_sqs_message] returns N - M submissions, one for each record that is
    not of size zero, in the order of the records. *)
Theorem C7_empty_objects_are_filtered (d : gmap string value)
    (image_prefix : string) (rs : list value) (fs : list s3_fields) :
  d !! "Records" = Some (VList rs) →
  Forall2 has_fields rs fs → Forall (follows_convention image_prefix) fs →
  ∃ subs, from_sqs_message d image_prefix = Ok (Build subs) ∧
          length subs = (length rs - length (List.filter empty_object fs))%nat ∧
          Forall2 (stands_for image_prefix) subs (List.filter nonempty_object fs).
Proof.
  intros E Hfields Hconv.
  destruct (from_sqs_message_well_formed d image_prefix rs fs E Hfields Hconv)
    as (subs & Hsubs & Hrel).
  exists subs. split; [done|]. split; [|done].
  rewrite (Forall2_length _ _ _ Hrel), (Forall2_length _ _ _ Hfields).
  apply filter_empty_nonempty.
Qed.

(** The end-to-end scenario of the specification. *)
Example end_to_end :
  from_sqs_message sample_notification sample_prefix =
  Ok (Build [S3ImageSubmission.Build "b.jpg" (VStr "b") "img/submissions/b.jpg"]).
Proof. vm_compute. reflexivity. Qed.

Lemma C7_empty_objects_are_filtered_witness :
  ∃ subs, from_sqs_message sample_notification sample_prefix = Ok (Build subs) ∧
          length subs =
            (length sample_records -
             length (List.filter empty_object sample_fields))%nat ∧
          Forall2 (stands_for sample_prefix) subs
                  (List.filter nonempty_object sample_fields).
Proof.
  apply (C7_empty_objects_are_filtered sample_notification sample_prefix
           sample_records sample_fields).
  - reflexivity.
  - repeat constructor.
  - repeat constructor.
    + intros H. vm_compute in H. discriminate.
    + intros _. exists "b.jpg". vm_compute. reflexivity.
Defined.

(** A record whose key is no string stops the loop at the decoding step,
    whatever its size: decoding comes before the size test. *)
Lemma loop_body_key_not_str (image_prefix : string)
    (result : list S3ImageSubmission.t) (r bucket_name raw_key size : value) :
  lookup_path r bucket_name_path = Some bucket_name →
  lookup_path r object_key_path = Some raw_key →
  lookup_path r object_size_path = Some size →
  ¬ is_str raw_key →
  loop_body image_prefix result r = Raise AttributeError.
Proof.
  intros Hn Hk Hs Hstr. rewrite (loop_body_with_fields _ _ _ _ _ _ Hn Hk Hs).
  destruct raw_key; try reflexivity. by destruct Hstr.
Qed.

(** C8: the key of every submission is the decoded key of its record, the
    content id is derived from the decoded key, and decoding comes first in
    each turn of the loop, ahead of the size test (a key that cannot be
    decoded stops the loop whatever the size).  Decoding is what
    percent-encoding means: every ['+'] is a space, every run of escapes
    that spells a UTF-8 character is that character, every other character
    stands for itself; so the keys of the submissions are the texts the
    keys of the records stand for.
    ["folder+name/file%20one.jpg"] decodes to ["folder name/file one.jpg"]. *)
Theorem C8_keys_are_decoded :
  (∀ (d : gmap string value) (image_prefix : string)
     (rs : list value) (fs : list s3_fields),
     d !! "Records" = Some (VList rs) →
     Forall2 has_fields rs fs → Forall (follows_convention image_prefix) fs →
     ∃ subs, from_sqs_message d image_prefix = Ok (Build subs) ∧
             S3ImageSubmission.key <$> subs =
             (λ f, unquote_plus_str (f_key f)) <$> List.filter nonempty_object fs) ∧
  (∀ (image_prefix : string) (result : list S3ImageSubmission.t)
     (r bucket_name size : value) (raw_key : string),
     lookup_path r bucket_name_path = Some bucket_name →
     lookup_path r object_key_path = Some (VStr raw_key) →
     lookup_path r object_size_path = Some size →
     loop_body image_prefix result r =
     if eq_zero size then Ok result
     else
       content_id ← get_content_id_from_s3_key (unquote_plus_str raw_key) image_prefix;
       Ok (result ++ [S3ImageSubmission.Build content_id bucket_name
                                              (unquote_plus_str raw_key)])%list) ∧
  (∀ (image_prefix : string) (result : list S3ImageSubmission.t)
     (r bucket_name raw_key size : value),
     lookup_path r bucket_name_path = Some bucket_name →
     lookup_path r object_key_path = Some raw_key →
     lookup_path r object_size_path = Some size →
     ¬ is_str raw_key →
     loop_body image_prefix result r = Raise AttributeError) ∧
  (∀ s t : string, decodes s t → unquote_plus_str s = t) ∧
  (∀ (d : gmap string value) (image_prefix : string)
     (rs : list value) (fs : list s3_fields) (texts : list string),
     d !! "Records" = Some (VList rs) →
     Forall2 has_fields rs fs → Forall (follows_convention image_prefix) fs →
     Forall2 (λ f t, decodes (f_key f) t) (List.filter nonempty_object fs) texts →
     ∃ subs, from_sqs_message d image_prefix = Ok (Build subs) ∧
             S3ImageSubmission.key <$> subs = texts) ∧
  unquote_plus_str "folder+name/file%20one.jpg" = "folder name/file one.jpg".
Proof.
  assert (∀ (d : gmap string value) (image_prefix : string)
     (rs : list value) (fs : list s3_fields),
     d !! "Records" = Some (VList rs) →
     Forall2 has_fields rs fs → Forall (follows_convention image_prefix) fs →
     ∃ subs, from_sqs_message d image_prefix = Ok (Build subs) ∧
             S3ImageSubmission.key <$> subs =
             (λ f, unquote_plus_str (f_key f)) <$> List.filter nonempty_object fs)
    as Hbatch.
  { intros d image_prefix rs fs E Hfields Hconv.
    destruct (from_sqs_message_well_formed d image_prefix rs fs E Hfields Hconv)
      as (subs & Hsubs & Hrel).
    exists subs. split; [done|]. clear -Hrel.
    induction Hrel as [|sub f subs fs' (_ & Hkey & _) _ IH]; [reflexivity|].
    cbn [fmap list_fmap]. f_equal; [exact Hkey | exact IH]. }
  split; [exact Hbatch|].
  split; [|split; [exact loop_body_key_not_str|]].
  - intros image_prefix result r bucket_name size raw_key Hn Hk Hs.
    by rewrite (loop_body_with_fields _ _ _ _ _ _ Hn Hk Hs).
  - split; [exact unquote_plus_decodes|]. split; [|vm_compute; reflexivity].
    intros d image_prefix rs fs texts E Hfields Hconv Htexts.
    destruct (Hbatch d image_prefix rs fs E Hfields Hconv)
      as (subs & Hsubs & Hkeys).
    exists subs. split; [done|]. rewrite Hkeys. clear -Htexts.
    induction Htexts as [|f t fs' texts Hf _ IH]; [reflexivity|].
    cbn [fmap list_fmap]. f_equal; [by apply unquote_plus_decodes | exact IH].
Qed.

(** The escaped key stands for the text given. *)
Lemma escaped_key_decodes :
  decodes "img%2Fsubmissions/my+cat%20one.jpg" "img/submissions/my cat one.jpg".
Proof.
  do 3 (apply decodes_literal; [done..|]).
  apply (decodes_escape "%2F" [47] "submissions/my+cat%20one.jpg"
                        "submissions/my cat one.jpg").
  { apply (escapes_cons "2" "F" 2 15); [by left..|constructor]. }
  { apply utf8_ascii. lia. }
  do 14 (apply decodes_literal; [done..|]). apply decodes_plus.
  do 3 (apply decodes_literal; [done..|]).
  apply (decodes_escape "%20" [32] "one.jpg" "one.jpg").
  { apply (escapes_cons "2" "0" 2 0); [by left..|constructor]. }
  { apply utf8_ascii. lia. }
  do 7 (apply decodes_literal; [done..|]). constructor.
Qed.

Lemma C8_keys_are_decoded_witness :
  (∃ subs, from_sqs_message sample_notification sample_prefix = Ok (Build subs) ∧
           S3ImageSubmission.key <$> subs =
           (λ f, unquote_plus_str (f_key f)) <$>
             List.filter nonempty_object sample_fields) ∧
  (∃ subs, from_sqs_message escaped_notification sample_prefix = Ok (Build subs) ∧
           S3ImageSubmission.key <$> subs = ["img/submissions/my cat one.jpg"]).
Proof.
  destruct C8_keys_are_decoded as (Hbatch & _ & _ & _ & Htexts & _). split.
  - apply (Hbatch sample_notification sample_prefix sample_records sample_fields).
    + reflexivity.
    + repeat constructor.
    + repeat constructor.
      * intros H. vm_compute in H. discriminate.
      * intros _. exists "b.jpg". vm_compute. reflexivity.
  - apply (Htexts escaped_notification sample_prefix escaped_records escaped_fields).
    + reflexivity.
    + repeat constructor.
    + repeat constructor.
      * intros H. vm_compute in H. discriminate.
      * intros _. exists "my cat one.jpg". vm_compute. reflexivity.
    + change (List.filter nonempty_object escaped_fields)
        with [Fields "b" "img%2Fsubmissions/my+cat%20one.jpg" 1024].
      constructor; [exact escaped_key_decodes | constructor].
Defined.

(** The batch of the notification with the escaped key. *)
Example escaped_end_to_end :
  from_sqs_message escaped_notification sample_prefix =
  Ok (Build [S3ImageSubmission.Build "my cat one.jpg" (VStr "b")
                                     "img/submissions/my cat one.jpg"]).
Proof. vm_compute. reflexivity. Qed.

(** C9: the content id of a submission is its decoded key with the prefix
    taken off the front; with the prefix ["submissions/"] the key
    ["submissions/abc123.jpg"] gives ["abc123.jpg"]. *)
Theorem C9_content_id_strips_prefix :
  (∀ image_prefix rest : string,
     get_content_id_from_s3_key (image_prefix ++ rest) image_prefix = Ok rest) ∧
  (∀ (image_prefix : string) (result : list S3ImageSubmission.t)
     (r : value) (f : s3_fields) (rest : string),
     has_fields r f → nonempty_object f = true →
     unquote_plus_str (f_key f) = image_prefix ++ rest →
     loop_body image_prefix result r =
     Ok (result ++ [S3ImageSubmission.Build rest (VStr (f_bucket f))
                                            (image_prefix ++ rest)])%list) ∧
  (∀ (d : gmap string value) (image_prefix : string)
     (rs : list value) (fs : list s3_fields),
     d !! "Records" = Some (VList rs) →
     Forall2 has_fields rs fs → Forall (follows_convention image_prefix) fs →
     ∃ subs, from_sqs_message d image_prefix = Ok (Build subs) ∧
             Forall (λ sub, S3ImageSubmission.key sub =
                            image_prefix ++ S3ImageSubmission.content_id sub) subs) ∧
  get_content_id_from_s3_key "submissions/abc123.jpg" "submissions/" = Ok "abc123.jpg".
Proof.
  split; [|split; [|split]].
  - intros image_prefix rest. unfold get_content_id_from_s3_key.
    by rewrite strip_prefix_app.
  - exact loop_body_stored_object.
  - intros d image_prefix rs fs E Hfields Hconv.
    destruct (from_sqs_message_well_formed d image_prefix rs fs E Hfields Hconv)
      as (subs & Hsubs & Hrel).
    exists subs. split; [done|]. clear -Hrel.
    induction Hrel as [|sub f subs fs' (_ & _ & Hid) _ IH]; constructor; done.
  - vm_compute. reflexivity.
Qed.

Lemma C9_content_id_strips_prefix_witness :
  loop_body "submissions/" [] (notification_record "b" "submissions/abc123.jpg" 7) =
  Ok [S3ImageSubmission.Build "abc123.jpg" (VStr "b") "submissions/abc123.jpg"] ∧
  ∃ subs, from_sqs_message sample_notification sample_prefix = Ok (Build subs) ∧
          Forall (λ sub, S3ImageSubmission.key sub =
                         sample_prefix ++ S3ImageSubmission.content_id sub) subs.
Proof.
  destruct C9_content_id_strips_prefix as (_ & Hrecord & Hbatch & _). split.
  - apply (Hrecord "submissions/" [] _ (Fields "b" "submissions/abc123.jpg" 7)
                   "abc123.jpg").
    + repeat split.
    + reflexivity.
    + vm_compute. reflexivity.
  - apply (Hbatch sample_notification sample_prefix sample_records sample_fields).
    + reflexivity.
    + repeat constructor.
    + repeat constructor.
      * intros H. vm_compute in H. discriminate.
      * intros _. exists "b.jpg". vm_compute. reflexivity.
Defined.

(** Closes [is_Some (lookup_path r path)] and its negation from the look-ups
    in the context. *)
Ltac path_lookup :=
  unfold bucket_name_path, object_key_path, object_size_path;
  cbn [lookup_path];
  repeat match goal with
         | H : _ !! _ = _ |- _ => rewrite H
         end;
  first [by eauto | by intros [? ?]].

Ltac paths_present :=
  repeat (apply Forall_cons_2; [path_lookup|]); apply Forall_nil_2.

(** A record with a field missing and nothing of the wrong kind: the loop
    stops at the first key it does not find, and names it. *)
Lemma loop_body_missing_key (image_prefix : string)
    (result : list S3ImageSubmission.t) (r : value) :
  typed_record r → lacks_field r →
  ∃ k path, k ∈ notification_keys ∧
            first_absent (λ p, is_Some (lookup_path r p)) reading_order path ∧
            last path = Some k ∧
            loop_body image_prefix result r = Raise (KeyError (VStr k)).
Proof.
  intros (Hr & Hs3d & Hbd & Hod & Hkd) Hlack.
  destruct r as [| | | | | |m|]; try done. clear Hr.
  unfold at_path, lacks_field, bucket_name_path, object_key_path,
    object_size_path in Hs3d, Hbd, Hod, Hkd, Hlack.
  cbn [lookup_path] in Hs3d, Hbd, Hod, Hkd, Hlack. unfold loop_body.
  destruct (m !! "s3") as [s3|] eqn:Hs3.
  2:{ exists "s3", ["s3"]. split; [in_list|].
      split; [|split; [done|by rewrite (getitem_absent _ _ Hs3)]].
      eexists [], _. split; [reflexivity|]. split; [paths_present|path_lookup]. }
  destruct s3 as [| | | | | |s|]; try done. read Hs3.
  destruct (s !! "bucket") as [bucket|] eqn:Hbucket.
  2:{ exists "bucket", ["s3"; "bucket"]. split; [in_list|].
      split; [|split; [done|by rewrite (getitem_absent _ _ Hbucket)]].
      eexists [_], _. split; [reflexivity|].
      split; [paths_present|path_lookup]. }
  destruct bucket as [| | | | | |b|]; try done. read Hbucket.
  destruct (b !! "name") as [name|] eqn:Hname.
  2:{ exists "name", bucket_name_path. split; [in_list|].
      split; [|split; [done|by rewrite (getitem_absent _ _ Hname)]].
      eexists [_; _], _. split; [reflexivity|].
      split; [paths_present|path_lookup]. }
  read Hname.
  destruct (s !! "object") as [object|] eqn:Hobject.
  2:{ exists "object", ["s3"; "object"]. split; [in_list|].
      split; [|split; [done|by rewrite (getitem_absent _ _ Hobject)]].
      eexists [_; _; _], _. split; [reflexivity|].
      split; [paths_present|path_lookup]. }
  destruct object as [| | | | | |o|]; try done. read Hobject.
  destruct (o !! "key") as [raw_key|] eqn:Hkey.
  2:{ exists "key", object_key_path. split; [in_list|].
      split; [|split; [done|by rewrite (getitem_absent _ _ Hkey)]].
      eexists [_; _; _; _], _. split; [reflexivity|].
      split; [paths_present|path_lookup]. }
  destruct raw_key as [| | | |raw_key| | |]; try done. read Hkey.
  cbn [unquote_plus mbind outcome_bind].
  destruct (o !! "size") as [size|] eqn:Hsize.
  2:{ exists "size", object_size_path. split; [in_list|].
      split; [|split; [done|by rewrite (getitem_absent _ _ Hsize)]].
      eexists [_; _; _; _; _], _. split; [reflexivity|].
      split; [paths_present|path_lookup]. }
  exfalso. intuition discriminate.
Qed.

Lemma well_formed_records_fields (image_prefix : string) (rs : list value) :
  Forall (well_formed_record image_prefix) rs →
  ∃ fs, Forall2 has_fields rs fs ∧ Forall (follows_convention image_prefix) fs.
Proof.
  induction 1 as [|r rs (f & Hf & Hc) _ (fs & Hfs & Hcs)].
  - exists []. split; constructor.
  - exists (f :: fs). split; by constructor.
Qed.

(** The batch parser stops at the first record with a field missing. *)
Lemma from_sqs_message_missing_field (d : gmap string value) (image_prefix : string)
    (before : list value) (r : value) (after : list value) :
  d !! "Records" = Some (VList (before ++ r :: after)%list) →
  Forall (well_formed_record image_prefix) before →
  typed_record r → lacks_field r →
  ∃ k path, k ∈ notification_keys ∧
            first_absent (λ p, is_Some (lookup_path r p)) reading_order path ∧
            last path = Some k ∧
            from_sqs_message d image_prefix = Raise (KeyError (VStr k)).
Proof.
  intros E Hbefore Hr Hlack. rewrite (from_sqs_message_list _ _ _ E), for_each_app.
  apply well_formed_records_fields in Hbefore as (fs & Hfs & Hconv).
  destruct (for_each_well_formed image_prefix before fs [] Hfs Hconv)
    as (subs & -> & _).
  cbn [mbind outcome_bind for_each].
  destruct (loop_body_missing_key image_prefix ([] ++ subs)%list r Hr Hlack)
    as (k & path & Hk & Hfirst & Hlast & ->).
  by exists k, path.
Qed.

Lemma from_sqs_message_no_records (d : gmap string value) (image_prefix : string) :
  d !! "Records" = None →
  from_sqs_message d image_prefix = Raise (KeyError (VStr "Records")).
Proof. intros E. unfold from_sqs_message. by rewrite (getitem_absent _ _ E). Qed.

(** C2 (amended): [URLSubmissionMessage.from_sqs_message] raises [KeyError],
    the missing-key error, on every mapping that lacks one of its four keys,
    and names the first one absent in the order ["ContentType"],
    ["ContentId"], ["URL"], ["EventType"].
    [S3ImageSubmissionBatchMessage.from_sqs_message] raises [KeyError] for
    ["Records"] when that key is absent; when ["Records"] is a list in which
    the records ahead of the first one with a missing field are well-formed
    and that record has nothing of the wrong kind in it, it raises
    [KeyError] for the key that ends the first path, in the order in which
    the record is read, that the record does not have. *)
Theorem C2_missing_key_raises_key_error :
  (∀ (d : gmap string value) (k : string),
     k ∈ required_keys → d !! k = None →
     ∃ k', k' ∈ required_keys ∧ d !! k' = None ∧
           first_absent (λ k, is_Some (d !! k)) required_keys k' ∧
           URLSubmissionMessage.from_sqs_message d = Raise (KeyError (VStr k'))) ∧
  (∀ (d : gmap string value) (image_prefix : string),
     d !! "Records" = None →
     from_sqs_message d image_prefix = Raise (KeyError (VStr "Records"))) ∧
  (∀ (d : gmap string value) (image_prefix : string)
     (before : list value) (r : value) (after : list value),
     d !! "Records" = Some (VList (before ++ r :: after)%list) →
     Forall (well_formed_record image_prefix) before →
     typed_record r → lacks_field r →
     ∃ k path, k ∈ notification_keys ∧
               first_absent (λ p, is_Some (lookup_path r p)) reading_order path ∧
               last path = Some k ∧
               from_sqs_message d image_prefix = Raise (KeyError (VStr k))).
Proof.
  split; [exact from_sqs_message_missing|].
  split; [exact from_sqs_message_no_records | exact from_sqs_message_missing_field].
Qed.

(** The mapping has neither ["ContentId"] nor ["URL"]; ["ContentId"] is
    read first and is the key named.  The record has neither a key nor a
    size; the key is read first and is the one named. *)
Lemma C2_missing_key_raises_key_error_witness :
  (∃ k', k' ∈ required_keys ∧
         (<["ContentType" := VStr "photo"]>
          {[ "EventType" := VStr "URLSubmission" ]} : gmap string value) !! k' = None ∧
         first_absent
           (λ k, is_Some ((<["ContentType" := VStr "photo"]>
                           {[ "EventType" := VStr "URLSubmission" ]}
                           : gmap string value) !! k))
           required_keys k' ∧
         URLSubmissionMessage.from_sqs_message
           (<["ContentType" := VStr "photo"]>
            {[ "EventType" := VStr "URLSubmission" ]}) = Raise (KeyError (VStr k'))) ∧
  from_sqs_message {[ "EventType" := VStr "URLSubmission" ]} sample_prefix =
    Raise (KeyError (VStr "Records")) ∧
  (∃ k path, k ∈ notification_keys ∧
        first_absent (λ p, is_Some (lookup_path record_missing_key_and_size p))
                     reading_order path ∧
        last path = Some k ∧
        from_sqs_message
          {[ "Records" := VList [notification_record "b" "img%2Fsubmissions/a.jpg" 0;
                                 record_missing_key_and_size] ]} sample_prefix =
        Raise (KeyError (VStr k))).
Proof.
  destruct C2_missing_key_raises_key_error as (Hurl & Hrecords & Hfield).
  split; [|split].
  - apply (Hurl _ "URL"); [in_list | reflexivity].
  - apply Hrecords. reflexivity.
  - apply (Hfield _ sample_prefix
                  [notification_record "b" "img%2Fsubmissions/a.jpg" 0]
                  record_missing_key_and_size []).
    + reflexivity.
    + repeat constructor. exists (Fields "b" "img%2Fsubmissions/a.jpg" 0).
      split; [repeat split|]. intros H. vm_compute in H. discriminate.
    + vm_compute. repeat split.
    + right. right. reflexivity.
Defined.

(** The keys named in the two cases above. *)
Example first_absent_key_is_named :
  URLSubmissionMessage.from_sqs_message
    (<["ContentType" := VStr "photo"]> {[ "EventType" := VStr "URLSubmission" ]})
  = Raise (KeyError (VStr "ContentId")) ∧
  from_sqs_message
    {[ "Records" := VList [notification_record "b" "img%2Fsubmissions/a.jpg" 0;
                           record_missing_key_and_size] ]} sample_prefix
  = Raise (KeyError (VStr "key")).
Proof. split; vm_compute; reflexivity. Qed.

(** C2 (as stated, refuted): the record has no object size, and the parser
    fails on it with an [AttributeError] from [unquote_plus], as its key is a
    number; no [KeyError] is raised. *)
Lemma C2_counterexample :
  lookup_path record_without_size object_size_path = None ∧
  from_sqs_message {[ "Records" := VList [record_without_size] ]} sample_prefix =
    Raise AttributeError.
Proof. split; vm_compute; reflexivity. Qed.

End FromSqsMessage.


(** * Further properties *)

(** ** The serialized form of a URLSubmissionMessage *)

Section SerializedForm.

Import URLSubmissionMessage.

Lemma bind_Ok {A B : Type} (r : outcome A) (f : A → outcome B) (b : B) :
  (x ← r; f x) = Ok b → ∃ a, r = Ok a ∧ f a = Ok b.
Proof. destruct r as [a|e]; [|discriminate]. intros H. by exists a. Qed.

Lemma to_sqs_message_Ok (m : t) (d : gmap string value) :
  to_sqs_message m = Ok d →
  ∃ c, content_type m = VClass c ∧
       d = <["ContentType" := VStr (get_name c)]>
            (<["ContentId" := content_id m]>
             (<["URL" := url m]> (<["EventType" := event_type m]> ∅))).
Proof.
  destruct m as [ct cid u et]. unfold to_sqs_message. cbn [content_type].
  destruct ct; try discriminate. cbn. intros [= <-]. eauto.
Qed.

(** X1: the serialized form of a message has the four keys and no other,
    and binds them to the name of the content type and to the other three
    fields. *)
Theorem X1_to_sqs_message_has_exactly_four_keys
    (c : ContentType) (cid u et : value) :
  ∃ d, to_sqs_message (Build (VClass c) cid u et) = Ok d ∧
       (∀ k, is_Some (d !! k) ↔ k ∈ required_keys) ∧
       d !! "ContentType" = Some (VStr (get_name c)) ∧
       d !! "ContentId" = Some cid ∧
       d !! "URL" = Some u ∧
       d !! "EventType" = Some et.
Proof.
  eexists. split; [apply to_sqs_message_class|].
  split; [|repeat split].
  intros k. rewrite !lookup_insert_is_Some'. unfold required_keys.
  rewrite !elem_of_cons, elem_of_nil.
  pose proof (lookup_empty_is_Some (M:=gmap string) (A:=value) k).
  intuition congruence.
Qed.

(** X2: the serialized form keeps everything it is made of: two messages
    with the same serialized form have the same content id, url and event
    type, and content types of the same name. *)
Theorem X2_to_sqs_message_keeps_fields (m1 m2 : t) (d : gmap string value) :
  to_sqs_message m1 = Ok d → to_sqs_message m2 = Ok d →
  content_id m1 = content_id m2 ∧ url m1 = url m2 ∧
  event_type m1 = event_type m2 ∧
  ∃ c1 c2, content_type m1 = VClass c1 ∧ content_type m2 = VClass c2 ∧
           get_name c1 = get_name c2.
Proof.
  intros (c1 & Hc1 & ->)%to_sqs_message_Ok (c2 & Hc2 & Hd)%to_sqs_message_Ok.
  pose proof (f_equal (λ d : gmap string value, d !! "ContentId") Hd) as Hid.
  pose proof (f_equal (λ d : gmap string value, d !! "URL") Hd) as Hurl.
  pose proof (f_equal (λ d : gmap string value, d !! "EventType") Hd) as Het.
  pose proof (f_equal (λ d : gmap string value, d !! "ContentType") Hd) as Hct.
  cbv beta in Hid, Hurl, Het, Hct.
  injection Hid as Hid. injection Hurl as Hurl. injection Het as Het.
  injection Hct as Hct.
  repeat split; [done..|]. by exists c1, c2.
Qed.

Lemma X2_to_sqs_message_keeps_fields_witness :
  VStr "id-1" = VStr "id-1" ∧ VStr "u" = VStr "u" ∧
  default_event_type = default_event_type ∧
  ∃ c1 c2, VClass {| get_name := "photo" |} = VClass c1 ∧
           VClass {| get_name := "photo" |} = VClass c2 ∧
           get_name c1 = get_name c2.
Proof.
  apply (X2_to_sqs_message_keeps_fields
           (new (VClass {| get_name := "photo" |}) (VStr "id-1") (VStr "u"))
           (new (VClass {| get_name := "photo" |}) (VStr "id-1") (VStr "u"))
           (<["ContentType" := VStr "photo"]>
            (<["ContentId" := VStr "id-1"]>
             (<["URL" := VStr "u"]>
              (<["EventType" := VStr "URLSubmission"]> ∅)))));
    reflexivity.
Defined.

Lemma from_sqs_message_fields (d : gmap string value) (m : t) :
  from_sqs_message d = Ok m →
  d !! "ContentType" = Some (content_type m) ∧
  d !! "ContentId" = Some (content_id m) ∧
  d !! "URL" = Some (url m) ∧
  d !! "EventType" = Some (event_type m).
Proof.
  unfold from_sqs_message. rewrite !getitem_dict.
  destruct (d !! "ContentType"); [|discriminate].
  destruct (d !! "ContentId"); [|discriminate].
  destruct (d !! "URL"); [|discriminate].
  destruct (d !! "EventType"); [|discriminate].
  cbn. by intros [= <-].
Qed.

(** X3: [from_sqs_message] returns a message exactly when the mapping binds
    all four keys, and the fields of the message are then the four values, of
    whatever kind they are; a mapping it accepts is one [could_be] accepts. *)
Theorem X3_from_sqs_message_returns_iff (d : gmap string value) (m : t) :
  (from_sqs_message d = Ok m ↔
   d !! "ContentType" = Some (content_type m) ∧
   d !! "ContentId" = Some (content_id m) ∧
   d !! "URL" = Some (url m) ∧
   d !! "EventType" = Some (event_type m)) ∧
  (from_sqs_message d = Ok m → could_be d = Ok true).
Proof.
  split; [split; [apply from_sqs_message_fields|]|].
  - intros (H1 & H2 & H3 & H4).
    rewrite (from_sqs_message_complete d _ _ _ _ H1 H2 H3 H4). by destruct m.
  - intros (_ & _ & _ & H4)%from_sqs_message_fields.
    apply contains_dict_true. by rewrite H4.
Qed.

Lemma X3_from_sqs_message_returns_iff_witness :
  could_be (<["ContentType" := VStr "photo"]>
            (<["ContentId" := VStr "id-1"]>
             (<["URL" := VStr "u"]> {[ "EventType" := VInt 7 ]}))) = Ok true.
Proof.
  apply (X3_from_sqs_message_returns_iff _
           (Build (VStr "photo") (VStr "id-1") (VStr "u") (VInt 7))).
  vm_compute. reflexivity.
Defined.

(** X4: a message that [from_sqs_message] returned can be serialized
    exactly when the mapping it was read from binds ["ContentType"] to a
    class; read from decoded JSON, where the content type is a string,
    [to_sqs_message] raises [AttributeError]. *)
Theorem X4_deserialized_serializes_iff_class (d : gmap string value) (m : t) :
  from_sqs_message d = Ok m →
  ((∃ d', to_sqs_message m = Ok d') ↔
   ∃ c, d !! "ContentType" = Some (VClass c)) ∧
  ((∀ c, d !! "ContentType" ≠ Some (VClass c)) →
   to_sqs_message m = Raise AttributeError).
Proof.
  intros (Hct & _)%from_sqs_message_fields. rewrite Hct.
  destruct m as [ct cid u et]. cbn [content_type]. clear Hct.
  unfold to_sqs_message. cbn [content_type].
  destruct ct; cbn; (split; [split|]); try (by intros [? ?]); eauto;
    try (intros H; by destruct (H _ eq_refl)).
Qed.

Lemma X4_deserialized_serializes_iff_class_witness :
  to_sqs_message (Build (VStr "photo") (VStr "id-1") (VStr "u")
                        (VStr "URLSubmission")) = Raise AttributeError.
Proof.
  apply (X4_deserialized_serializes_iff_class
           (<["ContentType" := VStr "photo"]>
            (<["ContentId" := VStr "id-1"]>
             (<["URL" := VStr "u"]> {[ "EventType" := VStr "URLSubmission" ]})))).
  - vm_compute. reflexivity.
  - intros c H. vm_compute in H. discriminate.
Defined.

(** X5: a serialized URL submission is taken for what it is: the probe of
    its own family accepts it, the probe of the S3 family answers [False],
    and the S3 parser, were it tried, raises [KeyError] for ["Records"]. *)
Theorem X5_serialized_message_is_discriminated (m : t) (d : gmap string value) :
  to_sqs_message m = Ok d →
  could_be d = Ok true ∧
  S3ImageSubmissionBatchMessage.could_be d = Ok false ∧
  ∀ image_prefix,
    S3ImageSubmissionBatchMessage.from_sqs_message d image_prefix =
    Raise (KeyError (VStr "Records")).
Proof.
  intros (c & _ & ->)%to_sqs_message_Ok. split; [|split].
  - apply contains_dict_true. eexists. reflexivity.
  - apply could_be_no_records. left. reflexivity.
  - intros image_prefix. apply from_sqs_message_no_records. reflexivity.
Qed.

Lemma X5_serialized_message_is_discriminated_witness :
  could_be (<["ContentType" := VStr "photo"]>
            (<["ContentId" := VStr "id-1"]>
             (<["URL" := VStr "u"]>
              (<["EventType" := VStr "URLSubmission"]> ∅)))) = Ok true ∧
  S3ImageSubmissionBatchMessage.could_be
           (<["ContentType" := VStr "photo"]>
            (<["ContentId" := VStr "id-1"]>
             (<["URL" := VStr "u"]>
              (<["EventType" := VStr "URLSubmission"]> ∅)))) = Ok false ∧
  S3ImageSubmissionBatchMessage.from_sqs_message
           (<["ContentType" := VStr "photo"]>
            (<["ContentId" := VStr "id-1"]>
             (<["URL" := VStr "u"]>
              (<["EventType" := VStr "URLSubmission"]> ∅)))) sample_prefix =
    Raise (KeyError (VStr "Records")).
Proof.
  destruct (X5_serialized_message_is_discriminated
              (new (VClass {| get_name := "photo" |}) (VStr "id-1") (VStr "u"))
              _ eq_refl) as (Hurl & Hs3 & Hparse).
  split; [exact Hurl|]. split; [exact Hs3 | exact (Hparse sample_prefix)].
Defined.

End SerializedForm.

(** ** Batches in general *)

Section Batches.

Import S3ImageSubmissionBatchMessage.

Ltac read H := rewrite (getitem_present _ _ _ H); cbn [mbind outcome_bind].

Lemma getitem_str_Ok (v : value) (k : string) (x : value) :
  getitem v (VStr k) = Ok x → ∃ m, v = VDict m ∧ m !! k = Some x.
Proof.
  destruct v as [| | | | | |m|]; try discriminate.
  rewrite getitem_dict. destruct (m !! k) eqn:E; [|discriminate].
  intros [= <-]. eauto.
Qed.

Lemma unquote_plus_Ok (v : value) (key : string) :
  unquote_plus v = Ok key → ∃ raw_key, v = VStr raw_key ∧ key = unquote_plus_str raw_key.
Proof. destruct v; try discriminate. intros [= <-]. eauto. Qed.

(** What a turn of the loop that does not raise has found in the record and
    done to the list. *)
Lemma loop_body_Ok (image_prefix : string)
    (result result' : list S3ImageSubmission.t) (r : value) :
  loop_body image_prefix result r = Ok result' →
  ∃ (bucket_name size : value) (raw_key : string),
    lookup_path r bucket_name_path = Some bucket_name ∧
    lookup_path r object_key_path = Some (VStr raw_key) ∧
    lookup_path r object_size_path = Some size ∧
    ((eq_zero size = true ∧ result' = result) ∨
     (eq_zero size = false ∧
      ∃ content_id,
        get_content_id_from_s3_key (unquote_plus_str raw_key) image_prefix =
          Ok content_id ∧
        result' = (result ++ [S3ImageSubmission.Build content_id bucket_name
                                (unquote_plus_str raw_key)])%list)).
Proof.
  unfold loop_body.
  intros (s3 & (m & -> & Hs3)%getitem_str_Ok & H)%bind_Ok.
  apply bind_Ok in H as (bucket & (s & -> & Hbucket)%getitem_str_Ok & H).
  apply bind_Ok in H as (bucket_name & (b & -> & Hname)%getitem_str_Ok & H).
  apply bind_Ok in H as (s3' & Hs3' & H).
  rewrite (getitem_present _ _ _ Hs3) in Hs3'. injection Hs3' as <-.
  apply bind_Ok in H as (object & (? & [= <-] & Hobject)%getitem_str_Ok & H).
  apply bind_Ok in H as (raw & (o & -> & Hkey)%getitem_str_Ok & H).
  apply bind_Ok in H as (key & (raw_key & -> & ->)%unquote_plus_Ok & H).
  apply bind_Ok in H as (s3' & Hs3' & H).
  rewrite (getitem_present _ _ _ Hs3) in Hs3'. injection Hs3' as <-.
  apply bind_Ok in H as (object' & Hobject' & H).
  rewrite (getitem_present _ _ _ Hobject) in Hobject'. injection Hobject' as <-.
  apply bind_Ok in H as (size & (? & [= <-] & Hsize)%getitem_str_Ok & H).
  exists bucket_name, size, raw_key.
  unfold bucket_name_path, object_key_path, object_size_path.
  cbn [lookup_path]. rewrite Hs3, Hbucket, Hname, Hobject, Hkey, Hsize.
  repeat split.
  destruct (eq_zero size); [left; split; [done|]; by injection H|].
  right. split; [done|].
  apply bind_Ok in H as (content_id & Hid & [= <-]). eauto.
Qed.

(** A turn of the loop only ever adds at the end of the list. *)
Lemma loop_body_acc (image_prefix : string)
    (result : list S3ImageSubmission.t) (r : value) :
  loop_body image_prefix result r =
  (added ← loop_body image_prefix [] r; Ok (result ++ added)%list).
Proof.
  unfold loop_body.
  destruct (getitem r (VStr "s3")) as [s3|]; cbn [mbind outcome_bind]; [|done].
  destruct (getitem s3 (VStr "bucket")) as [bucket|];
    cbn [mbind outcome_bind]; [|done].
  destruct (getitem bucket (VStr "name")) as [bucket_name|];
    cbn [mbind outcome_bind]; [|done].
  destruct (getitem s3 (VStr "object")) as [object|];
    cbn [mbind outcome_bind]; [|done].
  destruct (getitem object (VStr "key")) as [raw_key|];
    cbn [mbind outcome_bind]; [|done].
  destruct (unquote_plus raw_key) as [key|]; cbn [mbind outcome_bind]; [|done].
  destruct (getitem object (VStr "size")) as [size|];
    cbn [mbind outcome_bind]; [|done].
  destruct (eq_zero size); cbn [mbind outcome_bind]; [by rewrite app_nil_r|].
  by destruct (get_content_id_from_s3_key key image_prefix).
Qed.

Lemma for_each_acc (image_prefix : string)
    (result : list S3ImageSubmission.t) (rs : list value) :
  for_each (loop_body image_prefix) result rs =
  (added ← for_each (loop_body image_prefix) [] rs; Ok (result ++ added)%list).
Proof.
  revert result. induction rs as [|r rs IH]; intros result.
  - cbn. by rewrite app_nil_r.
  - cbn [for_each]. rewrite loop_body_acc.
    destruct (loop_body image_prefix [] r) as [added|e];
      cbn [mbind outcome_bind]; [|done].
    rewrite (IH (result ++ added)%list), (IH added).
    destruct (for_each (loop_body image_prefix) [] rs) as [more|e];
      cbn [mbind outcome_bind]; [|done].
    by rewrite app_assoc.
Qed.

(** The loop, when it gets through, has made one submission from each record
    that is not skipped, in the order of the records. *)
Lemma for_each_made_from (image_prefix : string) (rs : list value)
    (subs : list S3ImageSubmission.t) :
  for_each (loop_body image_prefix) [] rs = Ok subs →
  Forall2 (made_from image_prefix) subs (List.filter kept rs).
Proof.
  revert subs. induction rs as [|r rs IH]; intros subs.
  - intros [= <-]. constructor.
  - cbn [for_each List.filter].
    intros (added & Hr & Hrest)%bind_Ok. rewrite for_each_acc in Hrest.
    apply bind_Ok in Hrest as (more & Hmore & [= <-]).
    apply IH in Hmore.
    apply loop_body_Ok in Hr
      as (bucket_name & size & raw_key & Hn & Hk & Hs & Hcase).
    unfold kept, skipped. rewrite Hs.
    destruct Hcase as [(Hz & ->)|(Hz & content_id & Hid & ->)]; rewrite Hz.
    + exact Hmore.
    + cbn [negb app]. constructor; [|exact Hmore].
      exists bucket_name, size, raw_key. by repeat split.
Qed.

Lemma filter_kept_skipped (rs : list value) :
  (length (List.filter kept rs) + length (List.filter skipped rs))%nat = length rs.
Proof.
  induction rs as [|r rs IH]; [reflexivity|].
  cbn [List.filter]. unfold kept at 1.
  destruct (skipped r); cbn [negb length]; lia.
Qed.

(** X6: whatever the records hold, if [from_sqs_message] returns, its
    submissions are, in order, those of the records whose size does not
    compare equal to zero: each carries the bucket name of its record as it
    stands, the decoded key, and the content id derived from the decoded
    key.  Nothing is made from a record whose size compares equal to zero,
    which [0], [False] and [0.0] all do. *)
Theorem X6_submissions_are_made_from_kept_records
    (d : gmap string value) (image_prefix : string) (rs : list value) (b : t) :
  d !! "Records" = Some (VList rs) →
  from_sqs_message d image_prefix = Ok b →
  Forall2 (made_from image_prefix) (image_submissions b) (List.filter kept rs).
Proof.
  intros E. rewrite (from_sqs_message_list _ _ _ E).
  intros (subs & Hsubs & [= <-])%bind_Ok.
  by apply for_each_made_from.
Qed.

Lemma X6_submissions_are_made_from_kept_records_witness :
  Forall2 (made_from sample_prefix)
    [S3ImageSubmission.Build "b.jpg" (VStr "b") "img/submissions/b.jpg"]
    (List.filter kept sample_records).
Proof.
  apply (X6_submissions_are_made_from_kept_records sample_notification
           sample_prefix sample_records
           (Build [S3ImageSubmission.Build "b.jpg" (VStr "b")
                                           "img/submissions/b.jpg"])).
  - reflexivity.
  - vm_compute. reflexivity.
Defined.

(** X7: if [from_sqs_message] returns, the number of submissions and the
    number of records whose size compares equal to zero add up to the number
    of records: the batch is never longer than the notification, and shorter
    exactly by the skipped records. *)
Theorem X7_submissions_and_skipped_add_up
    (d : gmap string value) (image_prefix : string) (rs : list value) (b : t) :
  d !! "Records" = Some (VList rs) →
  from_sqs_message d image_prefix = Ok b →
  (length (image_submissions b) + length (List.filter skipped rs))%nat = length rs ∧
  (length (image_submissions b) ≤ length rs)%nat.
Proof.
  intros E. rewrite (from_sqs_message_list _ _ _ E).
  intros (subs & Hsubs%for_each_made_from & [= <-])%bind_Ok.
  cbn [image_submissions].
  rewrite (Forall2_length _ _ _ Hsubs).
  pose proof (filter_kept_skipped rs). lia.
Qed.

Lemma X7_submissions_and_skipped_add_up_witness :
  (length [S3ImageSubmission.Build "b.jpg" (VStr "b") "img/submissions/b.jpg"] +
   length (List.filter skipped sample_records))%nat = length sample_records ∧
  (length [S3ImageSubmission.Build "b.jpg" (VStr "b") "img/submissions/b.jpg"]
   ≤ length sample_records)%nat.
Proof.
  apply (X7_submissions_and_skipped_add_up sample_notification
           sample_prefix sample_records
           (Build [S3ImageSubmission.Build "b.jpg" (VStr "b")
                                           "img/submissions/b.jpg"])).
  - reflexivity.
  - vm_compute. reflexivity.
Defined.

(** X8: records are handled one after the other and independently: the
    batch of two notifications put end to end is the batch of the first
    followed by the batch of the second, and the first record that raises
    decides the exception of the whole. *)
Theorem X8_from_sqs_message_of_concatenation
    (d1 d2 d : gmap string value) (image_prefix : string) (rs1 rs2 : list value) :
  d1 !! "Records" = Some (VList rs1) →
  d2 !! "Records" = Some (VList rs2) →
  d !! "Records" = Some (VList (rs1 ++ rs2)%list) →
  from_sqs_message d image_prefix =
  (b1 ← from_sqs_message d1 image_prefix;
   b2 ← from_sqs_message d2 image_prefix;
   Ok (Build (image_submissions b1 ++ image_submissions b2)%list)).
Proof.
  intros E1 E2 E.
  rewrite (from_sqs_message_list _ _ _ E1), (from_sqs_message_list _ _ _ E2),
    (from_sqs_message_list _ _ _ E), for_each_app.
  destruct (for_each (loop_body image_prefix) [] rs1) as [subs1|e];
    cbn [mbind outcome_bind]; [|done].
  rewrite for_each_acc.
  by destruct (for_each (loop_body image_prefix) [] rs2).
Qed.

Lemma X8_from_sqs_message_of_concatenation_witness :
  from_sqs_message
    {[ "Records" := VList (sample_records ++ [record_without_size])%list ]}
    sample_prefix =
  (b1 ← from_sqs_message sample_notification sample_prefix;
   b2 ← from_sqs_message {[ "Records" := VList [record_without_size] ]}
                         sample_prefix;
   Ok (Build (image_submissions b1 ++ image_submissions b2)%list)).
Proof.
  apply (X8_from_sqs_message_of_concatenation _ _ _ sample_prefix
           sample_records [record_without_size]); reflexivity.
Defined.

(** A string cannot be subscripted by a key, so a record that is a string
    stops the loop. *)
Lemma for_each_str_first (image_prefix : string) (s : string) (rest : list value) :
  for_each (loop_body image_prefix) [] (VStr s :: rest) = Raise TypeError.
Proof. reflexivity. Qed.

(** What [from_sqs_message] does with a ["Records"] that is no list. *)
Lemma from_sqs_message_not_list (d : gmap string value) (image_prefix : string)
    (v : value) :
  d !! "Records" = Some v → ¬ is_list v →
  (no_records v ∧ from_sqs_message d image_prefix = Ok (Build [])) ∨
  (¬ no_records v ∧ from_sqs_message d image_prefix = Raise TypeError).
Proof.
  intros E Hlist. unfold from_sqs_message. read E.
  destruct v as [| | | |s|l|m|]; try (by destruct Hlist);
    try (right; split; [by intros [?|[?|?]]|reflexivity]).
  - destruct s as [|c s].
    + left. split; [right; by right|reflexivity].
    + right. split; [by intros [?|[?|?]]|].
      destruct (str_chars_shape c s) as (g & t & Hchars & _).
      cbn [iter mbind outcome_bind]. rewrite Hchars. reflexivity.
  - cbn [iter mbind outcome_bind].
    destruct (map_to_list m) as [|[k x] l] eqn:Hm.
    + apply map_to_list_empty_iff in Hm as ->.
      left. split; [right; by left|reflexivity].
    + right. split; [|reflexivity].
      intros [?|[[= ->]|?]]; done.
Qed.

(** X9: a ["Records"] that is no list is not refused as such.  The empty
    mapping and the empty string are iterated like the empty list and give
    the empty batch; any other value that is no list raises [TypeError]: a
    non-empty mapping or string at its first key or character, which cannot
    be subscripted by ["s3"], and [None], a boolean or a number as it cannot
    be iterated. *)
Theorem X9_records_that_is_no_list (d : gmap string value)
    (image_prefix : string) (v : value) :
  d !! "Records" = Some v →
  (no_records v → from_sqs_message d image_prefix = Ok (Build [])) ∧
  (¬ is_list v → ¬ no_records v →
   from_sqs_message d image_prefix = Raise TypeError).
Proof.
  intros E. split.
  - intros [-> | [-> | ->]]; unfold from_sqs_message; read E; reflexivity.
  - intros Hlist Hsome.
    by destruct (from_sqs_message_not_list d image_prefix v E Hlist)
      as [[? _]|[_ ?]].
Qed.

Lemma X9_records_that_is_no_list_witness :
  from_sqs_message {[ "Records" := VDict ∅ ]} sample_prefix = Ok (Build []) ∧
  from_sqs_message {[ "Records" := VDict {[ "s3" := VDict ∅ ]} ]} sample_prefix =
    Raise TypeError.
Proof.
  split.
  - apply (X9_records_that_is_no_list _ _ (VDict ∅)); [reflexivity|].
    right. left. reflexivity.
  - apply (X9_records_that_is_no_list _ _ (VDict {[ "s3" := VDict ∅ ]}));
      [reflexivity | exact id |].
    intros [H|[H|H]]; discriminate H.
Defined.

(** X10: a mapping the parser gets through is one the probe gets through.
    If [from_sqs_message] returns, ["Records"] is there and [could_be] does
    not raise; it answers [True] whenever ["Records"] has something in it,
    also when every record is skipped for its size, and [False] only when
    ["Records"] is the empty list, mapping or string, and then the batch is
    empty.  So a dispatcher that probes first loses no notification with a
    record in it. *)
Theorem X10_parsed_implies_probed (d : gmap string value)
    (image_prefix : string) (b : t) :
  from_sqs_message d image_prefix = Ok b →
  ∃ v, d !! "Records" = Some v ∧
       ((¬ no_records v ∧ could_be d = Ok true) ∨
        (no_records v ∧ could_be d = Ok false ∧ image_submissions b = [])).
Proof.
  intros H. destruct (d !! "Records") as [v|] eqn:E;
    [|by rewrite (from_sqs_message_no_records _ _ E) in H].
  exists v. split; [reflexivity|].
  destruct v as [| | | |s|l|m|];
    try (destruct (from_sqs_message_not_list d image_prefix _ E id)
           as [[Hnone Hb]|[_ Hb]];
         rewrite Hb in H; [|discriminate]; injection H as <-; right;
         split; [exact Hnone|]; split; [|reflexivity];
         rewrite could_be_unfold, E;
         by destruct Hnone as [?|[[= ->]|[= ->]]]).
  destruct l as [|x rest].
  - right. split; [by left|]. split; [apply could_be_no_records; by right|].
    rewrite (from_sqs_message_list _ _ _ E) in H. by injection H as <-.
  - left. split; [by intros [?|[?|?]]|].
    rewrite (could_be_list_cons d x rest E).
    rewrite (from_sqs_message_list _ _ _ E) in H.
    apply bind_Ok in H as (subs & Hsubs & _). cbn [for_each] in Hsubs.
    apply bind_Ok in Hsubs as (added & Hx & _).
    apply loop_body_Ok in Hx as (bucket_name & _ & _ & Hn & _).
    apply lookup_path_cons in Hn as (m & s3 & -> & Hs3 & _).
    apply contains_dict_true. by rewrite Hs3.
Qed.

(** A notification whose only record is skipped for its size: the batch is
    empty, and the probe answers [True]. *)
Lemma X10_parsed_implies_probed_witness :
  ∃ v, ({[ "Records" := VList [notification_record "b" "a.jpg" 0] ]}
        : gmap string value) !! "Records" = Some v ∧
       ((¬ no_records v ∧
         could_be {[ "Records" := VList [notification_record "b" "a.jpg" 0] ]}
         = Ok true) ∨
        (no_records v ∧
         could_be {[ "Records" := VList [notification_record "b" "a.jpg" 0] ]}
         = Ok false ∧
         image_submissions (Build []) = [])).
Proof.
  apply (X10_parsed_implies_probed _ sample_prefix).
  vm_compute. reflexivity.
Defined.

Example skipped_records_are_probed_true :
  from_sqs_message {[ "Records" := VList [notification_record "b" "a.jpg" 0] ]}
                   sample_prefix = Ok (Build []) ∧
  could_be {[ "Records" := VList [notification_record "b" "a.jpg" 0] ]} = Ok true.
Proof. split; vm_compute; reflexivity. Qed.

Lemma loop_body_parses (image_prefix : string) (r : value) :
  parses image_prefix r ↔ ∃ added, loop_body image_prefix [] r = Ok added.
Proof.
  split.
  - intros (bucket_name & size & raw_key & Hn & Hk & Hs & Hcase).
    rewrite (loop_body_with_fields _ _ _ _ _ _ Hn Hk Hs).
    cbn [unquote_plus mbind outcome_bind].
    destruct (eq_zero size); [eauto|].
    destruct Hcase as [?|[content_id ->]]; [done|]. cbn. eauto.
  - intros [added H].
    apply loop_body_Ok in H as (bucket_name & size & raw_key & Hn & Hk & Hs & Hcase).
    exists bucket_name, size, raw_key. repeat split; try done.
    destruct Hcase as [[? _]|(_ & content_id & ? & _)]; eauto.
Qed.

(** X12: a notification is parsed as a whole or not at all:
    [from_sqs_message] returns a batch exactly when every record of the list
    gets through the loop on its own, having a bucket name, a string key and
    a size, and a content id that can be derived if its size does not compare
    equal to zero.  One record that does not fails the notification; no
    partial batch is returned. *)
Theorem X12_from_sqs_message_all_or_nothing
    (d : gmap string value) (image_prefix : string) (rs : list value) :
  d !! "Records" = Some (VList rs) →
  (∃ b, from_sqs_message d image_prefix = Ok b) ↔
  Forall (parses image_prefix) rs.
Proof.
  intros E. rewrite (from_sqs_message_list _ _ _ E).
  assert ((∃ subs, for_each (loop_body image_prefix) [] rs = Ok subs) ↔
          Forall (parses image_prefix) rs) as Hloop.
  { induction rs as [|r rs IH] in |- *.
    - split; [constructor|by exists []].
    - cbn [for_each]. rewrite Forall_cons, loop_body_parses, <- IH.
      split.
      + intros (subs & (added & Hr & Hrest)%bind_Ok).
        split; [by exists added|].
        rewrite for_each_acc in Hrest.
        apply bind_Ok in Hrest as (more & -> & _). by exists more.
      + intros ([added ->] & [more Hmore]). cbn [mbind outcome_bind].
        rewrite for_each_acc, Hmore. cbn. eauto. }
  rewrite <- Hloop. split.
  - intros (b & (subs & -> & _)%bind_Ok). by exists subs.
  - intros [subs ->]. cbn. eauto.
Qed.

Lemma X12_from_sqs_message_all_or_nothing_witness :
  (∃ b, from_sqs_message sample_notification sample_prefix = Ok b) ↔
  Forall (parses sample_prefix) sample_records.
Proof.
  apply (X12_from_sqs_message_all_or_nothing sample_notification sample_prefix
           sample_records).
  reflexivity.
Defined.

End Batches.

(** ** Keys without escapes *)

Section Unquote.

Lemma free_of_cons (c a : ascii) (s : string) :
  free_of c (String a s) ↔ a ≠ c ∧ free_of c s.
Proof. unfold free_of. cbn [list_ascii_of_string In]. tauto. Qed.

Lemma unquote_from_idle_free (s : string) :
  free_of "%" s → unquote_from idle s = s.
Proof.
  induction s as [|c s IH]; [reflexivity|].
  intros [Hc Hs]%free_of_cons. specialize (IH Hs).
  destruct (128 <=? byte_val c) eqn:Hge.
  - cbn [unquote_from]. rewrite Hge, IH. reflexivity.
  - apply Z.leb_gt in Hge. rewrite unquote_from_literal by done.
    unfold utf8_feed, idle, utf8_start.
    destruct (byte_val c <? 128) eqn:Hlt; [|apply Z.ltb_ge in Hlt; lia].
    fold idle. rewrite IH. reflexivity.
Qed.

Lemma replace_plus_free_of_percent (s : string) :
  free_of "%" s → free_of "%" (replace_plus s).
Proof.
  induction s as [|a s IH]; [done|].
  intros [Ha Hs]%free_of_cons. rewrite replace_plus_cons.
  apply free_of_cons. split; [|by apply IH].
  by destruct (Ascii.eqb a "+").
Qed.

Lemma replace_plus_free_of_plus (s : string) :
  free_of "+" s → replace_plus s = s.
Proof.
  induction s as [|a s IH]; [done|].
  intros [Ha Hs]%free_of_cons. rewrite replace_plus_cons, (IH Hs).
  by destruct (Ascii.eqb_spec a "+").
Qed.

(** X11: a key without ['%'] is decoded by turning every ['+'] into a space
    and nothing else, whatever other characters it has, ASCII or not; a key
    with neither ['%'] nor ['+'] is its own decoding, so the submission of
    its record carries the key as the notification has it, and the content
    id is derived from that very key. *)
Theorem X11_unquote_plus_without_escapes (s : string) :
  free_of "%" s →
  unquote_plus_str s = replace_plus s ∧
  (free_of "+" s → unquote_plus_str s = s) ∧
  (free_of "+" s →
   ∀ (image_prefix : string) (result : list S3ImageSubmission.t)
     (r bucket_name size : value),
     lookup_path r bucket_name_path = Some bucket_name →
     lookup_path r object_key_path = Some (VStr s) →
     lookup_path r object_size_path = Some size →
     eq_zero size = false →
     S3ImageSubmissionBatchMessage.loop_body image_prefix result r =
     (content_id ← get_content_id_from_s3_key s image_prefix;
      Ok (result ++ [S3ImageSubmission.Build content_id bucket_name s])%list)).
Proof.
  intros Hs.
  assert (unquote_plus_str s = replace_plus s) as Heq.
  { unfold unquote_plus_str, unquote.
    by apply unquote_from_idle_free, replace_plus_free_of_percent. }
  split; [exact Heq|].
  assert (free_of "+" s → unquote_plus_str s = s) as Hid.
  { intros Hplus. by rewrite Heq, replace_plus_free_of_plus. }
  split; [exact Hid|].
  intros Hplus image_prefix result r bucket_name size Hn Hk Hsize Hz.
  rewrite (loop_body_with_fields _ _ _ _ _ _ Hn Hk Hsize).
  cbn [unquote_plus mbind outcome_bind]. by rewrite Hz, (Hid Hplus).
Qed.

Lemma X11_unquote_plus_without_escapes_witness :
  unquote_plus_str "img/sub missions/b.jpg" = replace_plus "img/sub missions/b.jpg" ∧
  unquote_plus_str "img/sub missions/b.jpg" = "img/sub missions/b.jpg" ∧
  S3ImageSubmissionBatchMessage.loop_body "img/" []
    (notification_record "b" "img/sub missions/b.jpg" 3) =
  (content_id ← get_content_id_from_s3_key "img/sub missions/b.jpg" "img/";
   Ok ([] ++ [S3ImageSubmission.Build content_id (VStr "b")
                                      "img/sub missions/b.jpg"])%list).
Proof.
  assert (∀ c, (c = "%" ∨ c = "+")%char → free_of c "img/sub missions/b.jpg")
    as Hfree.
  { intros c Hc. unfold free_of. vm_compute. intuition (subst; discriminate). }
  destruct (X11_unquote_plus_without_escapes "img/sub missions/b.jpg")
    as (Hplus & Hid & Hloop); [apply Hfree; by left|].
  split; [exact Hplus|]. split; [apply Hid, Hfree; by right|].
  apply (Hloop (Hfree _ (or_intror eq_refl)) "img/" [] _ (VStr "b") (VInt 3));
    reflexivity.
Defined.

End Unquote.
